(** * socket.io-db-session: the session engine of [index.js]

    A shallow embedding of the [Session] object of [index.js] (constructor,
    [_generateExpires], [_saveSession], [_loadSession], [_isExpired], [set],
    [get], [loadSession], [clearSession]) and the theorems that settle what
    the specification says about it.

    Conventions.
    - JavaScript values are the inductive type [value]; numbers are the
      integers [Z] (timestamps and durations are integers here).
    - The engine object ([this]) is the record [Session]; the caller's
      [options] object lives in a store of objects ([heap]) and the engine
      holds a reference to it, as the source does.
    - The outside world (clock, random identifiers, [util.inspect], [JSON])
      is the record [Env]; the database connection is the record [DB].
    - Every call of [logger.log], [db.query] and of the load callback is
      recorded in [trace], most recent first. *)

From Stdlib Require Import ZArith Lia Ascii String List DecimalString.
From stdpp Require Import base list strings.
Import ListNotations.
Local Open Scope string_scope.
Local Open Scope Z_scope.
Set Warnings "-register-all".

(** ** Characters and strings that cannot be written as plain literals *)

Definition dquote : ascii := ascii_of_nat 34.
Definition backslash : ascii := ascii_of_nat 92.
Definition newline : ascii := ascii_of_nat 10.
Definition nl : string := String newline EmptyString.
Definition empty : string := EmptyString.

(** ** JavaScript values *)

(** [VObj proto props] is an ordinary object: its prototype and its own
    properties in insertion order.  [VObjectPrototype] is the built-in
    [Object.prototype]; [VFun name] is a function object, known by name. *)
Inductive value : Type :=
| VUndefined
| VNull
| VBool (b : bool)
| VNum (n : Z)
| VStr (s : string)
| VArr (elems : list value)
| VObj (proto : value) (props : list (string * value))
| VObjectPrototype
| VFun (name : string).

(** The object literal [{}]. *)
Definition empty_object : value := VObj VObjectPrototype [].

(** What running a piece of the program yields: a result, a thrown
    exception, or [Unmodelled] where the program leaves the fragment of
    JavaScript this development gives a meaning to (property access on
    arrays, functions and primitives; arithmetic on non-numbers). *)
Inductive Exn : Type :=
| TypeError
| SyntaxError
| ThrownString (s : string).

Inductive Outcome (A : Type) : Type :=
| Returned (a : A)
| Thrown (e : Exn)
| Unmodelled.
Arguments Returned {A} a.
Arguments Thrown {A} e.
Arguments Unmodelled {A}.

(** ** underscore's predicates *)

Definition _isUndefined (v : value) : bool :=
  match v with VUndefined => true | _ => false end.

Definition _isFunction (v : value) : bool :=
  match v with VFun _ => true | _ => false end.

(** [_.isEqual(v, s)] for a string primitive [s]. *)
Definition _isEqual (v : value) (s : string) : bool :=
  match v with VStr t => String.eqb t s | _ => false end.

(** ** Property access on ordinary objects *)

Fixpoint assoc (k : string) (props : list (string * value)) : option value :=
  match props with
  | [] => None
  | (k', v) :: rest => if String.eqb k' k then Some v else assoc k rest
  end.

(** [CreateDataProperty]: replace the own property [k], or add it last. *)
Fixpoint define_own (k : string) (v : value) (props : list (string * value))
  : list (string * value) :=
  match props with
  | [] => [(k, v)]
  | (k', v') :: rest =>
      if String.eqb k' k then (k', v) :: rest
      else (k', v') :: define_own k v rest
  end.

(** The data properties of [Object.prototype] (all of them functions). *)
Definition Object_prototype_methods : list string :=
  [ "hasOwnProperty"; "isPrototypeOf"; "propertyIsEnumerable";
    "toLocaleString"; "toString"; "valueOf";
    "__defineGetter__"; "__defineSetter__";
    "__lookupGetter__"; "__lookupSetter__" ].

Definition Object_prototype_member (k : string) : value :=
  if String.eqb k "constructor" then VFun "Object"
  else if existsb (String.eqb k) Object_prototype_methods
       then VFun ("Object.prototype." ++ k)
       else VUndefined.

(** What a property name resolves to along a prototype chain. *)
Inductive Slot : Type :=
| Absent
| Data (v : value)
| ProtoAccessor.   (* the get/set pair [Object.prototype.__proto__] *)

Fixpoint lookup_chain (o : value) (k : string) : Outcome Slot :=
  match o with
  | VObj proto props =>
      match assoc k props with
      | Some v => Returned (Data v)
      | None => lookup_chain proto k
      end
  | VObjectPrototype =>
      if String.eqb k "__proto__" then Returned ProtoAccessor
      else match Object_prototype_member k with
           | VUndefined => Returned Absent
           | v => Returned (Data v)
           end
  | VNull => Returned Absent
  | _ => Unmodelled
  end.

(** [base[k]]. *)
Definition GetV (base : value) (k : string) : Outcome value :=
  match base with
  | VObj proto _ =>
      match lookup_chain base k with
      | Returned (Data v) => Returned v
      | Returned ProtoAccessor => Returned proto
      | Returned Absent => Returned VUndefined
      | Thrown e => Thrown e
      | Unmodelled => Unmodelled
      end
  | VUndefined | VNull => Thrown TypeError
  | _ => Unmodelled
  end.

(** Values of type Object, for the [__proto__] setter. *)
Definition is_object (v : value) : bool :=
  match v with
  | VObj _ _ | VArr _ | VObjectPrototype | VFun _ => true
  | _ => false
  end.

(** [base[k] = v] in sloppy mode; the result is [base] after the
    assignment.  A name found nowhere, or found as a data property (own or
    inherited, all writable here), becomes an own property; the inherited
    [__proto__] setter replaces the prototype when [v] is an object or
    [null] and does nothing otherwise. *)
Definition PutV (base : value) (k : string) (v : value) : Outcome value :=
  match base with
  | VObj proto props =>
      match lookup_chain base k with
      | Returned ProtoAccessor =>
          match v with
          | VNull => Returned (VObj v props)
          | _ => if is_object v then Returned (VObj v props)
                 else Returned base
          end
      | Returned _ => Returned (VObj proto (define_own k v props))
      | Thrown e => Thrown e
      | Unmodelled => Unmodelled
      end
  | VUndefined | VNull => Thrown TypeError
  | _ => Unmodelled
  end.

(** ** The database connection, the logger and the options object *)

Inductive Logger : Type :=
| NoopLogger                    (* [{ log: function(){} }] *)
| FileLogger (name : string).   (* a logger object supplied by the caller *)

Inductive SqlParam : Type :=
| PStr (s : string)
| PNum (n : Z).

(** One row of the table [session]. *)
Record Row : Type := mkRow {
  sessionId : string;
  row_expires : Z;
  data : string
}.

(** The [results] argument the driver hands to a query callback. *)
Inductive Results : Type :=
| ResUndefined               (* the query failed *)
| ResRows (rows : list Row)  (* the rows of a SELECT *)
| ResPacket.                 (* the status object of a write *)

Record QueryResponse : Type := mkResponse {
  qr_error : value;
  qr_results : Results
}.

Inductive Event : Type :=
| EvLog (lg : Logger) (level msg : string)
| EvQuery (sql : string) (params : list SqlParam)
| EvCall (fn : value) (args : list value).

(** The queries and the calls of a trace. *)
Definition queries (evs : list Event) : list (string * list SqlParam) :=
  flat_map (fun e => match e with EvQuery s p => [(s, p)] | _ => [] end) evs.

Definition calls (evs : list Event) : list (value * list value) :=
  flat_map (fun e => match e with EvCall f a => [(f, a)] | _ => [] end) evs.

(** [options.db]: what the connection answers to a query, given the
    queries it received before (most recent first), and how it renders a
    query for the log. *)
Record DB : Type := mkDB {
  db_query : list (string * list SqlParam) -> string -> list SqlParam -> QueryResponse;
  db_format : string -> list SqlParam -> string
}.

(** An options object; [None] is a field that is not there. *)
Record Options : Type := mkOptions {
  opt_expiration : option value;
  opt_logger : option Logger;
  opt_db : option DB
}.

(** [_.extend(destination, source)]: every field of [source] is copied
    over [destination], which is returned. *)
Definition _extend (destination source : Options) : Options :=
  {| opt_expiration :=
       match opt_expiration source with
       | Some e => Some e
       | None => opt_expiration destination
       end;
     opt_logger :=
       match opt_logger source with
       | Some l => Some l
       | None => opt_logger destination
       end;
     opt_db :=
       match opt_db source with
       | Some d => Some d
       | None => opt_db destination
       end |}.

Definition no_options : Options :=
  {| opt_expiration := None; opt_logger := None; opt_db := None |}.

(** The literal [{expiration: 86400000, logger: {log: function(){}}}]. *)
Definition default_options : Options :=
  {| opt_expiration := Some (VNum 86400000);
     opt_logger := Some NoopLogger;
     opt_db := None |}.

(** ** The engine object and the machine it runs on *)

Record Session : Type := mkSession {
  options : nat;     (* a reference into [heap] *)
  db : DB;
  logger : Logger;
  values : value;
  token : string;
  expires : Z
}.

(** [ticks] counts the reads of the clock and [draws] the identifiers
    drawn so far; [trace] has the most recent event first. *)
Record World : Type := mkWorld {
  heap : list Options;
  ticks : nat;
  draws : nat;
  trace : list Event
}.

Record Machine : Type := mkMachine {
  self : Session;
  world : World
}.

(** What the engine takes from its environment: [Date.now()] at each read
    of the clock, [uid.sync(n)] at each draw, [util.inspect] and [JSON]. *)
Record Env : Type := mkEnv {
  Date_now : nat -> Z;
  uid_sync : nat -> N -> string;
  util_inspect : value -> string;
  JSON_parse : string -> option value;   (* [None]: SyntaxError *)
  JSON_stringify : value -> string
}.

(** ** A state monad with exceptions *)

Definition M (A : Type) : Type := Machine -> Outcome A * Machine.

Definition ret {A} (a : A) : M A := fun m => (Returned a, m).

Definition bind {A B} (c : M A) (k : A -> M B) : M B :=
  fun m =>
    match c m with
    | (Returned a, m') => k a m'
    | (Thrown e, m') => (Thrown e, m')
    | (Unmodelled, m') => (Unmodelled, m')
    end.

Definition throw {A} (e : Exn) : M A := fun m => (Thrown e, m).
Definition unmodelled {A} : M A := fun m => (Unmodelled, m).
Definition lift {A} (o : Outcome A) : M A := fun m => (o, m).

Notation "x <- c ;; k" := (bind c (fun x => k))
  (at level 100, c at next level, right associativity).
Notation "c ;; k" := (bind c (fun _ => k))
  (at level 100, right associativity).

Definition this : M Session := fun m => (Returned (self m), m).

Definition update (f : Session -> Session) : M unit :=
  fun m => (Returned tt, {| self := f (self m); world := world m |}).

Definition set_values (v : value) (s : Session) : Session :=
  {| options := options s; db := db s; logger := logger s;
     values := v; token := token s; expires := expires s |}.
Definition set_token (t : string) (s : Session) : Session :=
  {| options := options s; db := db s; logger := logger s;
     values := values s; token := t; expires := expires s |}.
Definition set_expires (e : Z) (s : Session) : Session :=
  {| options := options s; db := db s; logger := logger s;
     values := values s; token := token s; expires := e |}.

Definition emit (e : Event) (w : World) : World :=
  {| heap := heap w; ticks := ticks w; draws := draws w;
     trace := e :: trace w |}.

Definition tick (w : World) : World :=
  {| heap := heap w; ticks := S (ticks w); draws := draws w;
     trace := trace w |}.

Definition draw (w : World) : World :=
  {| heap := heap w; ticks := ticks w; draws := S (draws w);
     trace := trace w |}.

Definition on_world (f : World -> World) (m : Machine) : Machine :=
  {| self := self m; world := f (world m) |}.

(** [this.logger.log(level, msg)]. *)
Definition log (level msg : string) : M unit :=
  fun m => (Returned tt, on_world (emit (EvLog (logger (self m)) level msg)) m).

(** [this.db.query(sql, params, callback)]: the query is sent, and the
    result is the answer the driver calls [callback] with.  The engine
    goes on with that callback at once; what the source does between
    sending and the answer (returning to its caller) is not given a place
    in the trace. *)
Definition query (sql : string) (params : list SqlParam) : M QueryResponse :=
  fun m => (Returned (db_query (db (self m)) (queries (trace (world m))) sql params),
            on_world (emit (EvQuery sql params)) m).

(** [f(args)]: a call of a function the engine was handed. *)
Definition call (f : value) (args : list value) : M unit :=
  fun m =>
    if _isFunction f
    then (Returned tt, on_world (emit (EvCall f args)) m)
    else (Thrown TypeError, m).

(** [Math.round(n / 1000)] for an integer [n]: to the nearest integer,
    halves upwards. *)
Definition Math_round_div1000 (n : Z) : Z := (n + 500) / 1000.

(** ** The [Session] object *)

Section Engine.

Variable E : Env.

(** [Date.now()]. *)
Definition DateNow : M Z :=
  fun m => (Returned (Date_now E (ticks (world m))), on_world tick m).

(** [uid.sync(n)]. *)
Definition uid (n : N) : M string :=
  fun m => (Returned (uid_sync E (draws (world m)) n), on_world draw m).

(** The object a reference points to. *)
Definition deref (l : nat) : M Options :=
  fun m =>
    match heap (world m) !! l with
    | Some o => (Returned o, m)
    | None => (Unmodelled, m)
    end.

Definition _dbCreateError : M string :=
  log "debug" "Socket.io-mysql-session: display db create script";;
  ret ("CREATE TABLE `session` (" ++ nl ++
       "    `sessionId` varchar(32) COLLATE utf8_bin NOT NULL," ++ nl ++
       "    `expires` int(11) unsigned NOT NULL," ++ nl ++
       "    `data` text COLLATE utf8_bin," ++ nl ++
       "    PRIMARY KEY (`sessionId`)" ++ nl ++
       ") ENGINE=InnoDB DEFAULT CHARSET=utf8 COLLATE=utf8_bin;").

(** [Math.round(new Date(Date.now() + this.options.expiration).getTime() / 1000)];
    [new Date(t).getTime()] is [t] for every time a [Date] holds.  An
    expiration that is not a number is outside the arithmetic given a
    meaning here. *)
Definition _generateExpires : M Z :=
  log "debug" "Socket.io-mysql-session: generating expires";;
  now <- DateNow;;
  s <- this;;
  o <- deref (options s);;
  match opt_expiration o with
  | Some (VNum ttl) => ret (Math_round_div1000 (now + ttl))
  | _ => unmodelled
  end.

Definition upsert_sql : string :=
  "INSERT INTO session " ++
  "(sessionId, expires, data) " ++
  "VALUES " ++
  "(?, ?, ?) " ++
  "ON DUPLICATE KEY UPDATE " ++
      "expires = ?, " ++
      "data = ?".

Definition upsert_params (tok : string) (e : Z) (sessionData : string)
  : list SqlParam :=
  [PStr tok; PNum e; PStr sessionData; PNum e; PStr sessionData].

Definition _saveSession : M unit :=
  log "debug" "Socket.io-mysql-session: saving session";;
  s <- this;;
  let sessionData := JSON_stringify E (values s) in
  e <- _generateExpires;;
  let sql := upsert_sql in
  let params := upsert_params (token s) e sessionData in
  log "debug" ("Socket.io-mysql-session: query: " ++ db_format (db s) sql params);;
  if negb (String.eqb (token s) empty)
  then
    r <- query sql params;;
    match qr_results r with
    | ResUndefined =>
        script <- _dbCreateError;;
        log "error" ("Socket.io-mysql-session: unable to save session. You might need to create the table. " ++ nl ++ script);;
        log "error" (util_inspect E (qr_error r))
    | _ => ret tt
    end
  else log "error" "Token is empty.".

Definition _isExpired : M bool :=
  log "debug" "Socket.io-mysql-session: _isExpired";;
  t <- DateNow;;
  let now := Math_round_div1000 t in
  s <- this;;
  ret (if Z.gtb now (expires s) then true else false).

Definition select_sql : string :=
  "SELECT * FROM session " ++
  "WHERE " ++
  "sessionId = ?".

(** Lines 144-163 of the function bound at lines 143-175: the answer to
    the lookup decides [generateNew] and [message]. *)
Definition classify_answer (error : value) (results : Results)
  : M (bool * string) :=
  match results with
  | ResRows (r :: _) =>
      match JSON_parse E (data r) with
      | None => throw SyntaxError
      | Some v =>
          update (set_values v);;
          update (set_expires (row_expires r));;
          expired <- _isExpired;;
          if expired : bool
          then log "debug" "Socket.io-mysql-session: session expired";;
               ret (true, "Session Expired")
          else ret (false, empty)
      end
  | ResRows [] =>
      log "debug" "Socket.io-mysql-session: session expired";;
      ret (true, "Session Not Found")
  | _ =>
      update (set_token empty);;
      let message := "Something terrible happened" ++ nl ++ util_inspect E error in
      log "error" ("Socket.io-mysql-session: " ++ message);;
      ret (false, message)
  end.

(** Lines 165-173: the new session, if one is due, and the callback. *)
Definition finish_load (callback : value) (generateNew : bool) (message : string)
  : M unit :=
  (if generateNew
   then t <- uid 24;;
        update (set_token t);;
        e <- _generateExpires;;
        update (set_expires e);;
        _saveSession
   else ret tt);;
  if _isFunction callback
  then s <- this;; call callback [VStr (token s); VStr message]
  else ret tt.

(** The function bound at lines 143-175, called by the driver with the
    answer to the lookup. *)
Definition _loadSession_callback (callback : value)
    (error : value) (results : Results) : M unit :=
  gm <- classify_answer error results;;
  finish_load callback (fst gm) (snd gm).

Definition _loadSession (callback : value) : M unit :=
  log "debug" "Socket.io-mysql-session: loading session";;
  let sql := select_sql in
  s <- this;;
  log "debug" ("Socket.io-mysql-session: query: " ++ db_format (db s) sql [PStr (token s)]);;
  r <- query sql [PStr (token s)];;
  _loadSession_callback callback (qr_error r) (qr_results r).

(** [Session.prototype.set]. *)
Definition set (key : string) (v : value) : M unit :=
  log "debug" ("Socket.io-mysql-session: setting " ++ key ++ " to session.");;
  s <- this;;
  vs <- lift (PutV (values s) key v);;
  update (set_values vs);;
  _saveSession.

(** [Session.prototype.get]. *)
Definition get (key : string) : M value :=
  log "debug" ("Socket.io-mysql-session: getting " ++ key ++ " from session.");;
  s <- this;;
  x <- lift (GetV (values s) key);;
  if _isUndefined x then ret (VStr empty) else lift (GetV (values s) key).

(** [Session.prototype.loadSession]. *)
Definition loadSession (tok : string) (callback : value) : M unit :=
  log "debug" "Socket.io-mysql-session: loadSession";;
  if _isUndefined (VStr tok) && _isEqual (VStr tok) empty
  then
    t <- uid 24;;
    update (set_token t);;
    _saveSession;;
    call callback [VStr tok; VStr empty]
  else
    update (set_token tok);;
    _loadSession callback.

(** [Session.prototype.clearSession]. *)
Definition clearSession : M unit :=
  update (set_values empty_object);;
  _saveSession.

Definition with_heap (h : list Options) (w : World) : World :=
  {| heap := h; ticks := ticks w; draws := draws w; trace := trace w |}.

(** [new Session(options)], [options] being [undefined] or a reference to
    the caller's object.  [_.extend] writes into that very object, and
    [this.options] is the same reference.  [expires] is not set before
    line 87; until then the record holds [0], which nothing reads. *)
Definition Session_new (opts : option nat) (w : World) : Outcome Session * World :=
  match opts with
  | None =>
      (* [options || {}] is a new object; [options.db] then fails *)
      (Thrown TypeError,
       with_heap (heap w ++ [_extend no_options default_options]) w)
  | Some l =>
      match heap w !! l with
      | None => (Unmodelled, w)
      | Some o =>
          let w1 := with_heap (<[l := _extend o default_options]> (heap w)) w in
          match heap w1 !! l with
          | None => (Unmodelled, w1)
          | Some o1 =>
              match opt_db o1 with
              | None =>
                  (Thrown (ThrownString "Database connection must be provided through options.db"), w1)
              | Some d =>
                  match opt_logger o1 with
                  | None => (Thrown TypeError, w1)   (* [undefined.log] at line 79 *)
                  | Some lg =>
                      let s0 := {| options := l; db := d; logger := lg;
                                   values := empty_object; token := empty;
                                   expires := 0 |} in
                      match _generateExpires {| self := s0; world := w1 |} with
                      | (Returned e, m) => (Returned (set_expires e (self m)), world m)
                      | (Thrown x, m) => (Thrown x, world m)
                      | (Unmodelled, m) => (Unmodelled, world m)
                      end
                  end
              end
          end
      end
  end.

(** The options handling of the middleware factory [ioSession] (lines
    253-266): the same merge into the caller's object, then
    [this.logger = options.logger]. *)
Definition ioSession (opts : option nat) (w : World)
  : Outcome (option Logger) * World :=
  match opts with
  | None =>
      (Thrown TypeError,
       with_heap (heap w ++ [_extend no_options default_options]) w)
  | Some l =>
      match heap w !! l with
      | None => (Unmodelled, w)
      | Some o =>
          let w1 := with_heap (<[l := _extend o default_options]> (heap w)) w in
          match heap w1 !! l with
          | Some o1 => (Returned (opt_logger o1), w1)
          | None => (Unmodelled, w1)
          end
      end
  end.

End Engine.

(** ** A concrete [JSON], clock and identifier source

    [TinyJSON] is [JSON.stringify] and [JSON.parse] on the values of this
    development: numbers are integers (a literal with a fraction or an
    exponent has no value here and is refused), strings are made of ASCII
    characters (a [\u] escape beyond 007f is refused).  The theorems
    below hold for every [Env]; this one serves where a closed example is
    evaluated. *)

Module TinyJSON.

Definition string_of_Z (n : Z) : string := NilZero.string_of_int (Z.to_int n).

Definition hex_digit (n : nat) : ascii :=
  nth n (list_ascii_of_string "0123456789abcdef") "0"%char.

Definition escape (c : ascii) : string :=
  let n := nat_of_ascii c in
  if Ascii.eqb c dquote then String backslash (String dquote EmptyString)
  else if Ascii.eqb c backslash then String backslash (String backslash EmptyString)
  else if Nat.eqb n 8 then String backslash "b"
  else if Nat.eqb n 9 then String backslash "t"
  else if Nat.eqb n 10 then String backslash "n"
  else if Nat.eqb n 12 then String backslash "f"
  else if Nat.eqb n 13 then String backslash "r"
  else if Nat.ltb n 32
       then String backslash
              (String "u" (String "0" (String "0"
                 (String (hex_digit (n / 16)) (String (hex_digit (n mod 16)) EmptyString)))))
       else String c EmptyString.

Fixpoint escape_all (s : string) : string :=
  match s with
  | EmptyString => EmptyString
  | String c rest => escape c ++ escape_all rest
  end.

Definition quote (s : string) : string :=
  String dquote (escape_all s ++ String dquote EmptyString).

Fixpoint join (sep : string) (l : list string) : string :=
  match l with
  | [] => EmptyString
  | [x] => x
  | x :: rest => x ++ sep ++ join sep rest
  end.

Definition is_digit (c : ascii) : bool :=
  let n := nat_of_ascii c in Nat.leb 48 n && Nat.leb n 57.

Fixpoint digits_value (acc : N) (s : list ascii) : N :=
  match s with
  | [] => acc
  | c :: rest => digits_value (10 * acc + N.of_nat (nat_of_ascii c - 48))%N rest
  end.

(** The array index a property name denotes, if any. *)
Definition array_index (k : string) : option N :=
  match list_ascii_of_string k with
  | [] => None
  | c :: rest =>
      if forallb is_digit (c :: rest)
         && (negb (Ascii.eqb c "0"%char) || Nat.eqb (List.length rest) 0)
         && Nat.leb (List.length (c :: rest)) 10
      then let n := digits_value 0%N (c :: rest) in
           if (n <=? 4294967294)%N then Some n else None
      else None
  end.

Fixpoint insert_sorted (i : N) (e : string) (l : list (N * string))
  : list (N * string) :=
  match l with
  | [] => [(i, e)]
  | (j, f) :: rest =>
      if (i <? j)%N then (i, e) :: l else (j, f) :: insert_sorted i e rest
  end.

Fixpoint order_entries (l : list (string * string))
  : list (N * string) * list string :=
  match l with
  | [] => ([], [])
  | (k, e) :: rest =>
      let (idx, named) := order_entries rest in
      match array_index k with
      | Some i => (insert_sorted i e idx, named)
      | None => (idx, e :: named)
      end
  end.

(** [None] is the result [undefined] of [JSON.stringify]. *)
Fixpoint stringify_value (v : value) : option string :=
  match v with
  | VUndefined | VFun _ => None
  | VNull => Some "null"
  | VBool true => Some "true"
  | VBool false => Some "false"
  | VNum n => Some (string_of_Z n)
  | VStr s => Some (quote s)
  | VArr elems =>
      Some ("[" ++ join ","
              (map (fun x => match stringify_value x with
                             | Some t => t
                             | None => "null"
                             end) elems) ++ "]")
  | VObj _ props =>
      let entries :=
        flat_map (fun kv : string * value =>
                    match stringify_value (snd kv) with
                    | Some t => [(fst kv, quote (fst kv) ++ ":" ++ t)]
                    | None => []
                    end) props in
      let (idx, named) := order_entries entries in
      Some ("{" ++ join "," (map snd idx ++ named) ++ "}")
  | VObjectPrototype => Some "{}"
  end.

Definition stringify (v : value) : string :=
  match stringify_value v with
  | Some t => t
  | None => "undefined"
  end.

(** *** Parsing *)

Definition is_space (c : ascii) : bool :=
  let n := nat_of_ascii c in
  Nat.eqb n 32 || Nat.eqb n 9 || Nat.eqb n 10 || Nat.eqb n 13.

Fixpoint skip_ws (s : list ascii) : list ascii :=
  match s with
  | c :: rest => if is_space c then skip_ws rest else s
  | [] => []
  end.

Definition hex_value (c : ascii) : option nat :=
  let n := nat_of_ascii c in
  if Nat.leb 48 n && Nat.leb n 57 then Some (n - 48)%nat
  else if Nat.leb 97 n && Nat.leb n 102 then Some (n - 87)%nat
  else if Nat.leb 65 n && Nat.leb n 70 then Some (n - 55)%nat
  else None.

(** The characters of a string literal after its opening quote. *)
Fixpoint parse_chars (s : list ascii) (acc : string) : option (string * list ascii) :=
  match s with
  | [] => None
  | c :: rest =>
      if Ascii.eqb c dquote then Some (acc, rest)
      else if Ascii.eqb c backslash then
        match rest with
        | e :: rest' =>
            let put (n : nat) := parse_chars rest' (acc ++ String (ascii_of_nat n) EmptyString) in
            if Ascii.eqb e dquote then put 34%nat
            else if Ascii.eqb e backslash then put 92%nat
            else if Ascii.eqb e "/"%char then put 47%nat
            else if Ascii.eqb e "b"%char then put 8%nat
            else if Ascii.eqb e "f"%char then put 12%nat
            else if Ascii.eqb e "n"%char then put 10%nat
            else if Ascii.eqb e "r"%char then put 13%nat
            else if Ascii.eqb e "t"%char then put 9%nat
            else if Ascii.eqb e "u"%char then
              match rest' with
              | a :: b :: c' :: d :: rest'' =>
                  match hex_value a, hex_value b, hex_value c', hex_value d with
                  | Some 0%nat, Some 0%nat, Some x, Some y =>
                      if Nat.ltb (16 * x + y) 128
                      then parse_chars rest'' (acc ++ String (ascii_of_nat (16 * x + y)) EmptyString)
                      else None
                  | _, _, _, _ => None
                  end
              | _ => None
              end
            else None
        | [] => None
        end
      else if Nat.ltb (nat_of_ascii c) 32 then None
      else parse_chars rest (acc ++ String c EmptyString)
  end.

Fixpoint take_digits (s : list ascii) : list ascii * list ascii :=
  match s with
  | c :: rest =>
      if is_digit c then let (d, r) := take_digits rest in (c :: d, r)
      else ([], s)
  | [] => ([], [])
  end.

(** An integer literal: [0] or a digit string without a leading zero. *)
Definition parse_int (s : list ascii) : option (Z * list ascii) :=
  match s with
  | c :: rest =>
      if Ascii.eqb c "0"%char then Some (0, rest)
      else if is_digit c
           then let (d, r) := take_digits rest in
                Some (Z.of_N (digits_value 0%N (c :: d)), r)
           else None
  | [] => None
  end.

Definition no_fraction (r : list ascii) : bool :=
  match r with
  | c :: _ => negb (Ascii.eqb c "."%char || Ascii.eqb c "e"%char || Ascii.eqb c "E"%char)
  | [] => true
  end.

Definition parse_number (s : list ascii) : option (value * list ascii) :=
  let signed :=
    match s with
    | c :: rest =>
        if Ascii.eqb c "-"%char
        then match parse_int rest with
             | Some (n, r) => Some (- n, r)
             | None => None
             end
        else parse_int s
    | [] => None
    end in
  match signed with
  | Some (n, r) => if no_fraction r then Some (VNum n, r) else None
  | None => None
  end.

Fixpoint parse_value (fuel : nat) (s : list ascii) : option (value * list ascii) :=
  match fuel with
  | O => None
  | S f =>
      match skip_ws s with
      | "n"%char :: "u"%char :: "l"%char :: "l"%char :: r => Some (VNull, r)
      | "t"%char :: "r"%char :: "u"%char :: "e"%char :: r => Some (VBool true, r)
      | "f"%char :: "a"%char :: "l"%char :: "s"%char :: "e"%char :: r => Some (VBool false, r)
      | "["%char :: r =>
          match skip_ws r with
          | "]"%char :: r' => Some (VArr [], r')
          | _ => parse_elements f r []
          end
      | "{"%char :: r =>
          match skip_ws r with
          | "}"%char :: r' => Some (VObj VObjectPrototype [], r')
          | _ => parse_members f r []
          end
      | c :: r =>
          if Ascii.eqb c dquote
          then match parse_chars r EmptyString with
               | Some (t, r') => Some (VStr t, r')
               | None => None
               end
          else parse_number (c :: r)
      | [] => None
      end
  end
with parse_elements (fuel : nat) (s : list ascii) (acc : list value)
  : option (value * list ascii) :=
  match fuel with
  | O => None
  | S f =>
      match parse_value f s with
      | Some (v, r) =>
          match skip_ws r with
          | ","%char :: r' => parse_elements f r' (acc ++ [v])
          | "]"%char :: r' => Some (VArr (acc ++ [v]), r')
          | _ => None
          end
      | None => None
      end
  end
with parse_members (fuel : nat) (s : list ascii) (acc : list (string * value))
  : option (value * list ascii) :=
  match fuel with
  | O => None
  | S f =>
      match skip_ws s with
      | q :: r =>
          if Ascii.eqb q dquote
          then match parse_chars r EmptyString with
               | Some (k, r1) =>
                   match skip_ws r1 with
                   | ":"%char :: r2 =>
                       match parse_value f r2 with
                       | Some (v, r3) =>
                           match skip_ws r3 with
                           | ","%char :: r4 => parse_members f r4 (define_own k v acc)
                           | "}"%char :: r4 =>
                               Some (VObj VObjectPrototype (define_own k v acc), r4)
                           | _ => None
                           end
                       | None => None
                       end
                   | _ => None
                   end
               | None => None
               end
          else None
      | [] => None
      end
  end.

Definition parse (text : string) : option value :=
  let s := list_ascii_of_string text in
  match parse_value (S (List.length s)) s with
  | Some (v, r) => match skip_ws r with [] => Some v | _ => None end
  | None => None
  end.

End TinyJSON.

(** Identifiers that are the draw number padded to the length of [n]
    bytes in base64, a rendering of the values an error can be, and two
    clocks: one that advances a millisecond per reading, and one that
    does so until reading [k] and is an hour further from then on. *)

Fixpoint pad (n : nat) (s : string) : string :=
  match n with
  | O => s
  | S n' => String "A"%char (pad n' s)
  end.

Definition sample_uid (d : nat) (n : N) : string :=
  let t := TinyJSON.string_of_Z (Z.of_nat d) in
  pad (N.to_nat ((4 * n + 2) / 3) - String.length t) t.

Definition sample_inspect (v : value) : string :=
  match v with
  | VStr s => "'" ++ s ++ "'"
  | _ => TinyJSON.stringify v
  end.

Definition steady_clock (n : nat) : Z := 1700000000000 + Z.of_nat n.

Definition paused_clock (k : nat) (n : nat) : Z :=
  if Nat.ltb n k then steady_clock n else steady_clock n + 3600000.

Definition sampleEnv (clock : nat -> Z) : Env :=
  {| Date_now := clock;
     uid_sync := sample_uid;
     util_inspect := sample_inspect;
     JSON_parse := TinyJSON.parse;
     JSON_stringify := TinyJSON.stringify |}.

(** *** A table-backed connection

    The table is what it held at the start plus every upsert sent since,
    replayed from the history, oldest first. *)

Definition upsert_row (r : Row) (table : list Row) : list Row :=
  r :: filter (fun x => negb (String.eqb (sessionId x) (sessionId r))) table.

Definition apply_query (qu : string * list SqlParam) (table : list Row) : list Row :=
  match qu with
  | (sql, [PStr t; PNum x; PStr d; PNum _; PStr _]) =>
      if String.eqb sql upsert_sql
      then upsert_row {| sessionId := t; row_expires := x; data := d |} table
      else table
  | _ => table
  end.

Definition table_after (init : list Row) (history : list (string * list SqlParam))
  : list Row :=
  fold_right apply_query init history.

Definition render_param (p : SqlParam) : string :=
  match p with
  | PStr s => "'" ++ s ++ "'"
  | PNum n => TinyJSON.string_of_Z n
  end.

Definition sample_format (sql : string) (params : list SqlParam) : string :=
  sql ++ " <- " ++ TinyJSON.join ", " (map render_param params).

Definition table_db (init : list Row) : DB :=
  {| db_query := fun history sql params =>
       if String.eqb sql select_sql
       then match params with
            | [PStr t] =>
                {| qr_error := VNull;
                   qr_results :=
                     ResRows (filter (fun x => String.eqb (sessionId x) t)
                                (table_after init history)) |}
            | _ => {| qr_error := VStr "ER_PARSE_ERROR"; qr_results := ResUndefined |}
            end
       else {| qr_error := VNull; qr_results := ResPacket |};
     db_format := sample_format |}.

(** A connection on which every query fails. *)
Definition failing_db : DB :=
  {| db_query := fun _ _ _ =>
       {| qr_error := VStr "ECONNREFUSED"; qr_results := ResUndefined |};
     db_format := sample_format |}.

(** ** Notions the statements use *)

(** What the connection answers when the engine looks [tok] up. *)
Definition lookup (m : Machine) (tok : string) : QueryResponse :=
  db_query (db (self m)) (queries (trace (world m))) select_sql [PStr tok].

(** The machine at the moment the driver answers the lookup of [tok]. *)
Definition looking_up (m : Machine) (tok : string) : Machine :=
  {| self := set_token tok (self m);
     world :=
       emit (EvQuery select_sql [PStr tok])
         (emit (EvLog (logger (self m)) "debug"
                  ("Socket.io-mysql-session: query: " ++
                   db_format (db (self m)) select_sql [PStr tok]))
            (emit (EvLog (logger (self m)) "debug"
                     "Socket.io-mysql-session: loading session")
               (emit (EvLog (logger (self m)) "debug"
                        "Socket.io-mysql-session: loadSession")
                  (world m)))) |}.

(** The upsert a save sends for an engine, if it sends one. *)
Definition upsert_of (E : Env) (s : Session) (now ttl : Z)
  : list (string * list SqlParam) :=
  if String.eqb (token s) empty then []
  else [(upsert_sql,
         upsert_params (token s) (Math_round_div1000 (now + ttl))
           (JSON_stringify E (values s)))].

(** The message of a failed lookup (line 161). *)
Definition terrible (E : Env) (error : value) : string :=
  "Something terrible happened" ++ nl ++ util_inspect E error.

Definition save_log : string := "Socket.io-mysql-session: saving session".
Definition expires_log : string := "Socket.io-mysql-session: generating expires".

(** The engine's options object is there and holds a number of
    milliseconds as its expiration. *)
Definition configured (m : Machine) (ttl : Z) : Prop :=
  exists o, heap (world m) !! options (self m) = Some o
            /\ opt_expiration o = Some (VNum ttl).

(** A world with one options object, and the engine built on it. *)
Definition world0 (o : Options) : World :=
  {| heap := [o]; ticks := 0; draws := 0; trace := [] |}.

Definition caller_options (d : DB) : Options :=
  {| opt_expiration := Some (VNum 3600); opt_logger := Some (FileLogger "my.log");
     opt_db := Some d |}.

Definition boot (E : Env) (d : DB) : option Machine :=
  match Session_new E (Some 0%nat) (world0 (caller_options d)) with
  | (Returned s, w) => Some {| self := s; world := w |}
  | _ => None
  end.

(** *** Concrete engines and rows for the closed examples *)

Definition E0 : Env := sampleEnv steady_clock.

(** The clock stands an hour further from its fourth reading on. *)
Definition E1 : Env := sampleEnv (paused_clock 3).

Definition quoted (s : string) : string :=
  String dquote (s ++ String dquote EmptyString).

(** The text [{"userId":"42"}]. *)
Definition stored_data : string :=
  "{" ++ quoted "userId" ++ ":" ++ quoted "42" ++ "}".

(** A row that went stale in 2020, one that is good until 2027 but whose
    data was cut short, and one that is good and sound. *)
Definition stale_row : Row :=
  {| sessionId := "previous-token"; row_expires := 1600000000; data := stored_data |}.

Definition broken_row : Row :=
  {| sessionId := "previous-token"; row_expires := 1800000000; data := "{" |}.

Definition sound_row : Row :=
  {| sessionId := "previous-token"; row_expires := 1800000000; data := stored_data |}.

(** The engine [new Session({db: d, ...})] builds under [E0], with its
    token set to [tok]. *)
Definition engine_at (d : DB) (tok : string) : Machine :=
  {| self := {| options := 0%nat; db := d; logger := NoopLogger;
                values := empty_object; token := tok;
                expires := 1700086400 |};
     world := {| heap := [_extend (caller_options d) default_options];
                 ticks := 1; draws := 0;
                 trace := [EvLog NoopLogger "debug" expires_log] |} |}.

Definition first_uid : string := sample_uid 0 24.

(** The clock is a day and a second further from reading [k] on. *)
Definition day_later_clock (k : nat) (n : nat) : Z :=
  if Nat.ltb n k then steady_clock n else steady_clock n + 86401000.

Definition E2 : Env := sampleEnv (day_later_clock 2).

Definition options_without_db : Options :=
  {| opt_expiration := Some (VNum 3600); opt_logger := Some (FileLogger "my.log");
     opt_db := None |}.

(** A row that is good until 2027 and whose data is the text [null]. *)
Definition null_row : Row :=
  {| sessionId := "previous-token"; row_expires := 1800000000; data := "null" |}.

Definition user_42 : value := VObj VObjectPrototype [("userId", VStr "42")].

(** ** The middleware

    [ioSession] above is the factory; what it returns is called with each
    new connection (lines 269-281) and installs the handler of the
    [getToken] message (lines 272-279).  [socket.on], [next] and
    [socket.emit] belong to socket.io: a call of each is an event of the
    trace. *)

(** The callback of line 276: called with [token] and [errors], it sends
    [socket.emit("gotToken", {token: token, errors: errors})]. *)
Definition gotToken : value := VFun "socket.emit gotToken".

(** The function returned by [ioSession], [mw_logger] being the
    [this.logger] of the factory; the result is [socket.session]. *)
Definition middleware (E : Env) (mw_logger : option Logger) (opts : option nat)
    (next : value) (w : World) : Outcome Session * World :=
  match mw_logger with
  | None => (Thrown TypeError, w)
  | Some lg =>
      let w1 := emit (EvLog lg "debug"
                        "Socket.io-mysql-session: middleware bound to socket") w in
      match Session_new E opts w1 with
      | (Returned s, w2) =>
          let w3 := emit (EvCall (VFun "socket.on")
                            [VStr "getToken"; VFun "getToken handler"]) w2 in
          if _isFunction next
          then (Returned s, emit (EvCall next []) w3)
          else (Thrown TypeError, w3)
      | (Thrown e, w2) => (Thrown e, w2)
      | (Unmodelled, w2) => (Unmodelled, w2)
      end
  end.

(** The handler of [getToken]; [params] is [None] when the message came
    without an object, and the token of the object otherwise. *)
Definition getToken_handler (E : Env) (mw_logger : option Logger)
    (params : option string) : M unit :=
  let tok := match params with Some t => t | None => empty end in
  match mw_logger with
  | None => throw TypeError
  | Some lg =>
      (fun m => (Returned tt,
                 on_world (emit (EvLog lg "debug"
                                   ("Socket.io-mysql-session: getToken [" ++ tok ++ "]"))) m));;
      loadSession E tok gotToken
  end.

(** ** Relations an operation keeps between the machine before and after *)

Definition respects {A} (R : Machine -> Machine -> Prop) (c : M A) : Prop :=
  forall m, R m (snd (c m)).

(** The engine's references and the objects of the store are the same. *)
Definition same_setup (m m' : Machine) : Prop :=
  options (self m') = options (self m)
  /\ db (self m') = db (self m)
  /\ logger (self m') = logger (self m)
  /\ heap (world m') = heap (world m).

(** No function the engine was handed has been called in between. *)
Definition same_calls (m m' : Machine) : Prop :=
  calls (trace (world m')) = calls (trace (world m)).

(** The engine object is the same. *)
Definition same_self (m m' : Machine) : Prop := self m' = self m.

(** What the connection answers to the upsert of a save. *)
Definition missing_db : string :=
  "Database connection must be provided through options.db".

(** The caller's object once the defaults are written over it. *)
Definition merged (o : Options) : Options :=
  {| opt_expiration := Some (VNum 86400000);
     opt_logger := Some NoopLogger;
     opt_db := opt_db o |}.

Definition save_answer (E : Env) (m : Machine) (ttl : Z) : QueryResponse :=
  db_query (db (self m)) (queries (trace (world m))) upsert_sql
    (upsert_params (token (self m))
       (Math_round_div1000 (Date_now E (ticks (world m)) + ttl))
       (JSON_stringify E (values (self m)))).

(** The row an upsert writes. *)
Definition row_of (tok : string) (e : Z) (d : string) : Row :=
  {| sessionId := tok; row_expires := e; data := d |}.

(** ** Stepping through the engine *)

Section Facts.

Variable E : Env.

Ltac step :=
  unfold bind, ret, log, this, update, DateNow, uid, deref, query, call,
    lift, throw, unmodelled, on_world;
  cbn [fst snd self world heap ticks draws trace emit tick draw
       options db logger values token expires
       set_values set_token set_expires].

Ltac norm :=
  cbn [fst snd self world heap ticks draws trace emit tick draw on_world
       options db logger values token expires
       set_values set_token set_expires] in *.

Lemma calls_cons (e : Event) (t : list Event) :
  calls (e :: t) =
    (match e with EvCall f a => [(f, a)] | _ => [] end ++ calls t)%list.
Proof. reflexivity. Qed.

Lemma queries_cons (e : Event) (t : list Event) :
  queries (e :: t) =
    (match e with EvQuery q p => [(q, p)] | _ => [] end ++ queries t)%list.
Proof. reflexivity. Qed.

Lemma generateExpires_configured (m : Machine) (ttl : Z) :
  configured m ttl ->
  _generateExpires E m =
    (Returned (Math_round_div1000 (Date_now E (ticks (world m)) + ttl)),
     on_world (fun w => tick (emit (EvLog (logger (self m)) "debug"
                 "Socket.io-mysql-session: generating expires") w)) m).
Proof.
  intros (o & Ho & Ht).
  unfold _generateExpires. step.
  rewrite Ho. step. rewrite Ht. reflexivity.
Qed.

(** The events of one save on an engine that has a token, most recent
    first, after the driver's answer was handled. *)
Lemma saveSession_sends (m : Machine) (ttl : Z) :
  configured m ttl ->
  token (self m) <> empty ->
  let s := self m in
  let w := world m in
  let e := Math_round_div1000 (Date_now E (ticks w) + ttl) in
  let params := upsert_params (token s) e (JSON_stringify E (values s)) in
  exists answer_logs,
    _saveSession E m =
      (Returned tt,
       {| self := s;
          world := {| heap := heap w; ticks := S (ticks w); draws := draws w;
                      trace := answer_logs ++
                               EvQuery upsert_sql params ::
                               EvLog (logger s) "debug"
                                 ("Socket.io-mysql-session: query: " ++
                                  db_format (db s) upsert_sql params) ::
                               EvLog (logger s) "debug" expires_log ::
                               EvLog (logger s) "debug" save_log ::
                               trace w |} |})
    /\ queries answer_logs = [] /\ calls answer_logs = [].
Proof.
  intros (o & Ho & Ht) Htok s w e params.
  unfold _saveSession, _generateExpires. step.
  rewrite Ho. step. rewrite Ht. step.
  destruct (String.eqb_spec (token (self m)) empty) as [Heq|_]; [contradiction|].
  cbn [negb]. step.
  match goal with |- context [qr_results ?r] => destruct (qr_results r) end.
  - unfold _dbCreateError. step.
    eexists [_; _; _]. split; [reflexivity|]. split; reflexivity.
  - exists []. split; [reflexivity|]. split; reflexivity.
  - exists []. split; [reflexivity|]. split; reflexivity.
Qed.

(** The events of one save on an engine without a token. *)
Lemma saveSession_skips (m : Machine) (ttl : Z) :
  configured m ttl ->
  token (self m) = empty ->
  let s := self m in
  let w := world m in
  let e := Math_round_div1000 (Date_now E (ticks w) + ttl) in
  let params := upsert_params (token s) e (JSON_stringify E (values s)) in
  _saveSession E m =
    (Returned tt,
     {| self := s;
        world := {| heap := heap w; ticks := S (ticks w); draws := draws w;
                    trace := EvLog (logger s) "error" "Token is empty." ::
                             EvLog (logger s) "debug"
                               ("Socket.io-mysql-session: query: " ++
                                db_format (db s) upsert_sql params) ::
                             EvLog (logger s) "debug" expires_log ::
                             EvLog (logger s) "debug" save_log ::
                             trace w |} |}).
Proof.
  intros (o & Ho & Ht) Htok s w e params. subst s w e params.
  unfold _saveSession, _generateExpires. step.
  rewrite Ho. step. rewrite Ht. step.
  rewrite Htok. reflexivity.
Qed.

Lemma configured_same_options (m m' : Machine) (ttl : Z) :
  configured m ttl ->
  heap (world m') = heap (world m) ->
  options (self m') = options (self m) ->
  configured m' ttl.
Proof.
  intros (o & Ho & Ht) Hh Hs. exists o. rewrite Hh, Hs. auto.
Qed.

(** One save, whatever the token: the engine is untouched, the clock was
    read once, and the only query sent is the upsert, if any. *)
Lemma saveSession_returns (m : Machine) (ttl : Z) :
  configured m ttl ->
  exists m',
    _saveSession E m = (Returned tt, m')
    /\ self m' = self m
    /\ heap (world m') = heap (world m)
    /\ ticks (world m') = S (ticks (world m))
    /\ draws (world m') = draws (world m)
    /\ queries (trace (world m')) =
         (upsert_of E (self m) (Date_now E (ticks (world m))) ttl
          ++ queries (trace (world m)))%list
    /\ calls (trace (world m')) = calls (trace (world m)).
Proof.
  intros Hc. unfold upsert_of.
  destruct (String.eqb_spec (token (self m)) empty) as [Heq|Hne].
  - eexists. split; [apply (saveSession_skips m ttl Hc Heq)|].
    repeat split; reflexivity.
  - destruct (saveSession_sends m ttl Hc Hne) as (logs & Hs & Hq & Hk).
    eexists. split; [exact Hs|].
    cbn [self world heap ticks draws trace].
    repeat split; unfold queries, calls in *;
      rewrite flat_map_app; [rewrite Hq | rewrite Hk]; reflexivity.
Qed.

Lemma loadSession_runs_lookup (m : Machine) (tok : string) (cb : value) :
  loadSession E tok cb m =
    _loadSession_callback E cb (qr_error (lookup m tok))
      (qr_results (lookup m tok)) (looking_up m tok).
Proof. reflexivity. Qed.

(** Lines 165-173 when a new session is due. *)
Lemma finish_load_new (m : Machine) (ttl : Z) (cb msg : string) :
  configured m ttl ->
  let t := uid_sync E (draws (world m)) 24 in
  let now1 := Date_now E (ticks (world m)) in
  let now2 := Date_now E (S (ticks (world m))) in
  let s' := set_expires (Math_round_div1000 (now1 + ttl)) (set_token t (self m)) in
  exists m',
    finish_load E (VFun cb) true msg m = (Returned tt, m')
    /\ self m' = s'
    /\ heap (world m') = heap (world m)
    /\ ticks (world m') = S (S (ticks (world m)))
    /\ draws (world m') = S (draws (world m))
    /\ queries (trace (world m')) =
         (upsert_of E s' now2 ttl ++ queries (trace (world m)))%list
    /\ calls (trace (world m')) =
         (VFun cb, [VStr t; VStr msg]) :: calls (trace (world m)).
Proof.
  intros Hc t now1 now2 s'.
  unfold finish_load. step.
  rewrite (generateExpires_configured _ ttl)
    by (eapply configured_same_options; [exact Hc | reflexivity | reflexivity]).
  step.
  match goal with |- context [_saveSession E ?m2] =>
    destruct (saveSession_returns m2 ttl) as (m' & Hs & Hself & Hh & Ht & Hd & Hq & Hk);
    [eapply configured_same_options; [exact Hc | reflexivity | reflexivity]|]
  end.
  rewrite Hs. cbn [_isFunction]. step.
  eexists. split; [reflexivity|].
  norm. rewrite Hself, Hh, Ht, Hd.
  repeat split.
  - cbn [queries flat_map app]. fold (queries (trace (world m'))).
    rewrite Hq. reflexivity.
  - cbn [calls flat_map app]. fold (calls (trace (world m'))).
    rewrite Hk. reflexivity.
Qed.

Lemma classify_failure (m : Machine) (error : value) (res : Results) :
  res = ResUndefined \/ res = ResPacket ->
  classify_answer E error res m =
    (Returned (false, terrible E error),
     {| self := set_token empty (self m);
        world := emit (EvLog (logger (self m)) "error"
                         ("Socket.io-mysql-session: " ++ terrible E error))
                   (world m) |}).
Proof. intros [-> | ->]; reflexivity. Qed.

Lemma classify_not_found (m : Machine) (error : value) :
  classify_answer E error (ResRows []) m =
    (Returned (true, "Session Not Found"),
     on_world (emit (EvLog (logger (self m)) "debug"
                       "Socket.io-mysql-session: session expired")) m).
Proof. reflexivity. Qed.

Lemma classify_unparsable (m : Machine) (error : value) (r : Row) (rest : list Row) :
  JSON_parse E (data r) = None ->
  classify_answer E error (ResRows (r :: rest)) m = (Thrown SyntaxError, m).
Proof. intros H. unfold classify_answer. rewrite H. reflexivity. Qed.

(** A row that parses: the engine takes its data and its expiry, reads the
    clock once, and asks for a new session exactly when the row is stale. *)
Lemma classify_found (m : Machine) (error : value) (r : Row) (rest : list Row)
    (v : value) :
  JSON_parse E (data r) = Some v ->
  exists m',
    classify_answer E error (ResRows (r :: rest)) m =
      (Returned (if Math_round_div1000 (Date_now E (ticks (world m))) >? row_expires r
                 then (true, "Session Expired") else (false, empty)), m')
    /\ self m' = set_expires (row_expires r) (set_values v (self m))
    /\ heap (world m') = heap (world m)
    /\ ticks (world m') = S (ticks (world m))
    /\ draws (world m') = draws (world m)
    /\ queries (trace (world m')) = queries (trace (world m))
    /\ calls (trace (world m')) = calls (trace (world m)).
Proof.
  intros H. unfold classify_answer. rewrite H.
  unfold _isExpired. step.
  destruct (Math_round_div1000 (Date_now E (ticks (world m))) >? row_expires r);
    step; eexists; (split; [reflexivity|]); repeat split.
Qed.

(** Lines 165-173 when the session found is kept. *)
Lemma finish_load_keep (m : Machine) (cb msg : string) :
  finish_load E (VFun cb) false msg m =
    (Returned tt, on_world (emit (EvCall (VFun cb) [VStr (token (self m)); VStr msg])) m).
Proof. reflexivity. Qed.

(** A save on an engine without a token sends nothing, whatever the
    options object holds. *)
Lemma saveSession_no_token (m : Machine) :
  token (self m) = empty ->
  queries (trace (world (snd (_saveSession E m)))) = queries (trace (world m))
  /\ self (snd (_saveSession E m)) = self m.
Proof.
  intros Htok. unfold _saveSession, _generateExpires. step.
  destruct (heap (world m) !! options (self m)) as [o|]; [|split; reflexivity].
  step.
  destruct (opt_expiration o) as [[]|]; try (split; reflexivity).
  step. rewrite Htok. split; reflexivity.
Qed.

(** ** Saving *)

(** C8. A save attempted while the engine's token is the empty string
    sends no query at all: [_saveSession] leaves the queries of the trace
    and the engine as they were and, on a configured engine, returns
    after logging the error [Token is empty.] last; the same holds for
    the saves that [clearSession] and [set] trigger. *)
Theorem save_without_token_sends_nothing (m : Machine) :
  token (self m) = empty ->
  queries (trace (world (snd (_saveSession E m)))) = queries (trace (world m))
  /\ self (snd (_saveSession E m)) = self m
  /\ (forall ttl, configured m ttl ->
        fst (_saveSession E m) = Returned tt
        /\ head (trace (world (snd (_saveSession E m)))) =
             Some (EvLog (logger (self m)) "error" "Token is empty."))
  /\ queries (trace (world (snd (clearSession E m)))) = queries (trace (world m))
  /\ (forall k v,
        queries (trace (world (snd (set E k v m)))) = queries (trace (world m))).
Proof.
  intros Htok.
  destruct (saveSession_no_token m Htok) as [Hq Hs].
  split; [exact Hq|]. split; [exact Hs|]. split; [|split].
  - intros ttl Hc. rewrite (saveSession_skips m ttl Hc Htok). split; reflexivity.
  - unfold clearSession. step.
    match goal with |- context [_saveSession E ?m1] =>
      destruct (saveSession_no_token m1 Htok) as [Hq1 _]; exact Hq1 end.
  - intros k v. unfold set. step.
    destruct (PutV (values (self m)) k v) as [vs|e|]; try reflexivity.
    step.
    match goal with |- context [_saveSession E ?m1] =>
      destruct (saveSession_no_token m1 Htok) as [Hq1 _]; exact Hq1 end.
Qed.

(** C3, as the code has it. Every save that is sent (the engine then
    has a token) sends one upsert with the parameters
    [token, e, data, e, data], where [e] is
    [Math.round((now + ttl) / 1000)], [now] being the clock read by that
    very save and [ttl] the expiration of the options object: so for
    [_saveSession], [clearSession] and [set] on an engine that has a
    token, and for the save by which [loadSession], whatever token the
    engine had before, replaces a session not found or found stale.  The
    engine's own [expires] is not written by a save: [_saveSession],
    [clearSession] and [set] leave it as it was, and the load-repair path
    leaves in it the value of its own, earlier reading of the clock. *)
Theorem save_persists_sliding_expiry (m : Machine) (ttl : Z) :
  configured m ttl ->
  let insert := "INSERT INTO session (sessionId, expires, data) VALUES (?, ?, ?) ON DUPLICATE KEY UPDATE expires = ?, data = ?" in
  let select := "SELECT * FROM session WHERE sessionId = ?" in
  let now := Date_now E (ticks (world m)) in
  let next := Date_now E (S (ticks (world m))) in
  let after := Date_now E (S (S (ticks (world m)))) in
  let t := uid_sync E (draws (world m)) 24 in
  (token (self m) <> empty ->
   let tok := token (self m) in
   let e := Math_round_div1000 (now + ttl) in
   (exists m',
       _saveSession E m = (Returned tt, m')
       /\ queries (trace (world m')) =
            (insert, [PStr tok; PNum e; PStr (JSON_stringify E (values (self m)));
                      PNum e; PStr (JSON_stringify E (values (self m)))])
            :: queries (trace (world m))
       /\ expires (self m') = expires (self m))
   /\ (exists m',
       clearSession E m = (Returned tt, m')
       /\ queries (trace (world m')) =
            (insert, [PStr tok; PNum e; PStr (JSON_stringify E empty_object);
                      PNum e; PStr (JSON_stringify E empty_object)])
            :: queries (trace (world m))
       /\ expires (self m') = expires (self m))
   /\ (forall k v vs,
       PutV (values (self m)) k v = Returned vs ->
       exists m',
         set E k v m = (Returned tt, m')
         /\ queries (trace (world m')) =
              (insert, [PStr tok; PNum e; PStr (JSON_stringify E vs);
                        PNum e; PStr (JSON_stringify E vs)])
              :: queries (trace (world m))
         /\ expires (self m') = expires (self m)))
  /\ (forall tok cb,
      qr_results (lookup m tok) = ResRows [] ->
      t <> empty ->
      let e := Math_round_div1000 (next + ttl) in
      exists m',
        loadSession E tok (VFun cb) m = (Returned tt, m')
        /\ queries (trace (world m')) =
             (insert, [PStr t; PNum e; PStr (JSON_stringify E (values (self m)));
                       PNum e; PStr (JSON_stringify E (values (self m)))])
             :: (select, [PStr tok]) :: queries (trace (world m))
        /\ expires (self m') = Math_round_div1000 (now + ttl))
  /\ (forall tok cb r rest v,
      qr_results (lookup m tok) = ResRows (r :: rest) ->
      JSON_parse E (data r) = Some v ->
      Math_round_div1000 now > row_expires r ->
      t <> empty ->
      let e := Math_round_div1000 (after + ttl) in
      exists m',
        loadSession E tok (VFun cb) m = (Returned tt, m')
        /\ queries (trace (world m')) =
             (insert, [PStr t; PNum e; PStr (JSON_stringify E v);
                       PNum e; PStr (JSON_stringify E v)])
             :: (select, [PStr tok]) :: queries (trace (world m))
        /\ expires (self m') = Math_round_div1000 (next + ttl)).
Proof.
  intros Hc insert select now next after t. subst insert select now next after t.
  assert (Hup : forall s clock, token s <> empty ->
            upsert_of E s clock ttl =
              [(upsert_sql, upsert_params (token s) (Math_round_div1000 (clock + ttl))
                  (JSON_stringify E (values s)))]).
  { intros s clock Hs. unfold upsert_of.
    destruct (String.eqb_spec (token s) empty); [contradiction|reflexivity]. }
  split; [|split].
  - intros Htok tok e. subst tok e. split; [|split].
    + destruct (saveSession_returns m ttl Hc) as (m' & Hs & Hself & _ & _ & _ & Hq & _).
      exists m'. rewrite Hs, Hq, Hself, (Hup _ _ Htok). repeat split.
    + unfold clearSession. step.
      match goal with |- context [_saveSession E ?m1] =>
        destruct (saveSession_returns m1 ttl) as (m' & Hs & Hself & _ & _ & _ & Hq & _);
        [eapply configured_same_options; [exact Hc|reflexivity|reflexivity]|] end.
      norm. exists m'. rewrite Hs, Hq, Hself, Hup by exact Htok. repeat split.
    + intros k v vs Hput. unfold set. step. rewrite Hput. step.
      match goal with |- context [_saveSession E ?m1] =>
        destruct (saveSession_returns m1 ttl) as (m' & Hs & Hself & _ & _ & _ & Hq & _);
        [eapply configured_same_options; [exact Hc|reflexivity|reflexivity]|] end.
      norm. rewrite queries_cons in Hq. cbn [app] in Hq.
      exists m'. rewrite Hs, Hq, Hself, Hup by exact Htok. repeat split.
  - intros tok cb Hres Ht e. subst e.
    rewrite loadSession_runs_lookup. unfold _loadSession_callback.
    unfold bind at 1. rewrite Hres, classify_not_found. cbn [fst snd].
    match goal with |- context [finish_load E _ true ?msg ?m1] =>
      destruct (finish_load_new m1 ttl cb msg) as (m' & Hs & Hself & _ & _ & _ & Hq & _);
      [eapply configured_same_options; [exact Hc|reflexivity|reflexivity]|] end.
    unfold looking_up in *. norm.
    rewrite Hup in Hq by exact Ht.
    repeat rewrite queries_cons in Hq. cbn [app] in Hq. norm.
    exists m'. rewrite Hs, Hq, Hself. repeat split.
  - intros tok cb r rest v Hres Hparse Hstale Ht e. subst e.
    rewrite loadSession_runs_lookup. unfold _loadSession_callback.
    unfold bind at 1. rewrite Hres.
    destruct (classify_found (looking_up m tok) (qr_error (lookup m tok)) r rest v Hparse)
      as (m1 & Hcl & Hself1 & Hh1 & Ht1 & Hd1 & Hq1 & _).
    rewrite Hcl. unfold looking_up in *. norm.
    apply Z.gtb_gt in Hstale. rewrite Hstale. cbn [fst snd].
    destruct (finish_load_new m1 ttl cb "Session Expired")
      as (m' & Hs & Hself & _ & _ & _ & Hq & _).
    { eapply configured_same_options; [exact Hc|exact Hh1|rewrite Hself1; reflexivity]. }
    rewrite Hd1, Ht1, Hself1, Hq1 in *. norm.
    rewrite Hup in Hq by exact Ht.
    repeat rewrite queries_cons in Hq. cbn [app] in Hq. norm.
    exists m'. rewrite Hs, Hq, Hself. repeat split.
Qed.

(** C9, as the code has it. Two calls of [clearSession] in a row each
    return with [values] the empty mapping.  On an engine that has a
    token, each sends one upsert under that token, with the parameters
    [token, e, data, e, data] where [data] is the serialised empty
    mapping, the same text both times, and [e] the expiry of that save; on
    an engine whose token is the empty string neither call sends a
    query. *)
Theorem clearSession_twice (m : Machine) (ttl : Z) :
  configured m ttl ->
  let insert := "INSERT INTO session (sessionId, expires, data) VALUES (?, ?, ?) ON DUPLICATE KEY UPDATE expires = ?, data = ?" in
  let tok := token (self m) in
  let payload := JSON_stringify E empty_object in
  let e1 := Math_round_div1000 (Date_now E (ticks (world m)) + ttl) in
  let e2 := Math_round_div1000 (Date_now E (S (ticks (world m))) + ttl) in
  exists m1 m2,
    clearSession E m = (Returned tt, m1)
    /\ clearSession E m1 = (Returned tt, m2)
    /\ values (self m1) = empty_object
    /\ values (self m2) = empty_object
    /\ (tok <> empty ->
        queries (trace (world m1)) =
          (insert, [PStr tok; PNum e1; PStr payload; PNum e1; PStr payload])
          :: queries (trace (world m))
        /\ queries (trace (world m2)) =
          (insert, [PStr tok; PNum e2; PStr payload; PNum e2; PStr payload])
          :: queries (trace (world m1)))
    /\ (tok = empty ->
        queries (trace (world m1)) = queries (trace (world m))
        /\ queries (trace (world m2)) = queries (trace (world m))).
Proof.
  intros Hc insert tok payload e1 e2. subst insert tok payload e1 e2.
  assert (Hone : forall m0, configured m0 ttl ->
            exists m',
              clearSession E m0 = (Returned tt, m')
              /\ self m' = set_values empty_object (self m0)
              /\ ticks (world m') = S (ticks (world m0))
              /\ configured m' ttl
              /\ queries (trace (world m')) =
                   (upsert_of E (set_values empty_object (self m0))
                      (Date_now E (ticks (world m0))) ttl
                    ++ queries (trace (world m0)))%list).
  { intros m0 Hc0. unfold clearSession. step.
    match goal with |- context [_saveSession E ?m1] =>
      destruct (saveSession_returns m1 ttl) as (m' & Hs & Hself & Hh & Ht & _ & Hq & _);
      [eapply configured_same_options; [exact Hc0|reflexivity|reflexivity]|] end.
    norm. exists m'. rewrite Hs. repeat split; try assumption.
    eapply configured_same_options; [exact Hc0|exact Hh|rewrite Hself; reflexivity]. }
  destruct (Hone m Hc) as (m1 & H1 & Hs1 & Ht1 & Hc1 & Hq1).
  destruct (Hone m1 Hc1) as (m2 & H2 & Hs2 & Ht2 & _ & Hq2).
  exists m1, m2. split; [exact H1|]. split; [exact H2|].
  split; [rewrite Hs1; reflexivity|]. split; [rewrite Hs2; reflexivity|].
  rewrite Hq2, Hq1, Hs1, Ht1. unfold upsert_of. norm.
  split; intros Htok.
  - destruct (String.eqb_spec (token (self m)) empty); [contradiction|].
    split; reflexivity.
  - rewrite Htok. split; reflexivity.
Qed.

(** ** Loading *)

Lemma terrible_not_empty (error : value) : terrible E error <> empty.
Proof. discriminate. Qed.

Lemma looking_up_configured (m : Machine) (ttl : Z) (tok : string) :
  configured m ttl -> configured (looking_up m tok) ttl.
Proof.
  intros Hc. eapply configured_same_options; [exact Hc|reflexivity|reflexivity].
Qed.

(** C5. When the lookup fails (the driver hands over no results),
    [loadSession] returns with the engine's token the empty string, calls
    the callback once with that empty token and the message
    [Something terrible happened] followed by the rendered error, which is
    not empty, and has sent the lookup and nothing else: no save. *)
Theorem lookup_failure_clears_token (m : Machine) (tok cb : string) :
  qr_results (lookup m tok) = ResUndefined ->
  let message := terrible E (qr_error (lookup m tok)) in
  exists m',
    loadSession E tok (VFun cb) m = (Returned tt, m')
    /\ token (self m') = empty
    /\ message <> empty
    /\ calls (trace (world m')) =
         (VFun cb, [VStr empty; VStr message]) :: calls (trace (world m))
    /\ queries (trace (world m')) =
         (select_sql, [PStr tok]) :: queries (trace (world m)).
Proof.
  intros Hres message.
  rewrite loadSession_runs_lookup. unfold _loadSession_callback.
  unfold bind at 1.
  rewrite (classify_failure _ _ _ (or_introl Hres)).
  cbn [fst snd]. rewrite finish_load_keep.
  eexists. split; [reflexivity|].
  repeat split. apply terrible_not_empty.
Qed.


(** What [loadSession] does with a stale row whose data parses: the new
    token is saved with the data of the old row. *)
Lemma expired_row_is_resaved (m : Machine) (ttl : Z) (tok cb : string)
    (r : Row) (rest : list Row) (v : value) :
  configured m ttl ->
  qr_results (lookup m tok) = ResRows (r :: rest) ->
  JSON_parse E (data r) = Some v ->
  Math_round_div1000 (Date_now E (ticks (world m))) > row_expires r ->
  let t := uid_sync E (draws (world m)) 24 in
  t <> empty ->
  exists m' e,
    loadSession E tok (VFun cb) m = (Returned tt, m')
    /\ token (self m') = t
    /\ values (self m') = v
    /\ queries (trace (world m')) =
         (upsert_sql, upsert_params t e (JSON_stringify E v))
         :: (select_sql, [PStr tok]) :: queries (trace (world m))
    /\ calls (trace (world m')) =
         (VFun cb, [VStr t; VStr "Session Expired"]) :: calls (trace (world m)).
Proof.
  intros Hc Hres Hparse Hstale t Ht.
  rewrite loadSession_runs_lookup. unfold _loadSession_callback.
  unfold bind at 1. rewrite Hres.
  destruct (classify_found (looking_up m tok) (qr_error (lookup m tok)) r rest v Hparse)
    as (m1 & Hcl & Hself1 & Hh1 & Ht1 & Hd1 & Hq1 & Hk1).
  rewrite Hcl. unfold looking_up in *. norm.
  apply Z.gtb_gt in Hstale. rewrite Hstale. cbn [fst snd].
  destruct (finish_load_new m1 ttl cb "Session Expired")
    as (m' & Hs & Hself & _ & _ & _ & Hq & Hk).
  { eapply configured_same_options; [exact Hc|exact Hh1|rewrite Hself1; reflexivity]. }
  norm. rewrite Hd1, Ht1, Hself1, Hq1, Hk1 in *. norm.
  unfold upsert_of in Hq. norm.
  destruct (String.eqb_spec (uid_sync E (draws (world m)) 24) empty); [contradiction|].
  eexists m', _. rewrite Hs, Hself, Hq, Hk. norm.
  repeat split.
Qed.

(** C6, as the code has it. On a configured engine, whenever the lookup
    fails, finds no row, or finds a row whose data [JSON.parse] accepts,
    [loadSession] returns without an exception and calls the callback
    exactly once, with the engine's token and a message that is empty only
    if the row was loaded and is not stale.  When [JSON.parse] refuses the
    data of the row found, its SyntaxError leaves the lookup callback
    and the callback is not called. *)
Theorem loadSession_notifies_unless_parse_fails (m : Machine) (ttl : Z)
    (tok cb : string) :
  configured m ttl ->
  ((forall r rest, qr_results (lookup m tok) = ResRows (r :: rest) ->
                   JSON_parse E (data r) <> None) ->
   exists m' msg,
     loadSession E tok (VFun cb) m = (Returned tt, m')
     /\ calls (trace (world m')) =
          (VFun cb, [VStr (token (self m')); VStr msg]) :: calls (trace (world m))
     /\ (msg = empty ->
         exists r rest,
           qr_results (lookup m tok) = ResRows (r :: rest)
           /\ JSON_parse E (data r) = Some (values (self m'))
           /\ token (self m') = tok
           /\ Math_round_div1000 (Date_now E (ticks (world m))) <= row_expires r))
  /\ (forall r rest,
        qr_results (lookup m tok) = ResRows (r :: rest) ->
        JSON_parse E (data r) = None ->
        exists m',
          loadSession E tok (VFun cb) m = (Thrown SyntaxError, m')
          /\ calls (trace (world m')) = calls (trace (world m))).
Proof.
  intros Hc. split.
  - intros Hparse.
    rewrite loadSession_runs_lookup. unfold _loadSession_callback.
    unfold bind at 1.
    destruct (qr_results (lookup m tok)) as [|[|r rest]|] eqn:Hres.
    + rewrite (classify_failure _ _ _ (or_introl eq_refl)). cbn [fst snd].
      rewrite finish_load_keep. eexists _, _. split; [reflexivity|].
      split; [reflexivity|]. intros Hm. destruct (terrible_not_empty _ Hm).
    + rewrite classify_not_found. cbn [fst snd].
      match goal with |- context [finish_load E _ true ?msg ?m1] =>
        destruct (finish_load_new m1 ttl cb msg) as (m' & Hs & Hself & _ & _ & _ & _ & Hk);
        [eapply configured_same_options; [exact Hc|reflexivity|reflexivity]|] end.
      norm. exists m', "Session Not Found". rewrite Hs, Hk, Hself. norm.
      split; [reflexivity|]. split; [reflexivity|]. discriminate.
    + destruct (JSON_parse E (data r)) as [v|] eqn:Hp;
        [|destruct (Hparse r rest eq_refl Hp)].
      destruct (classify_found (looking_up m tok) (qr_error (lookup m tok)) r rest v Hp)
        as (m1 & Hcl & Hself1 & Hh1 & Ht1 & Hd1 & Hq1 & Hk1).
      rewrite Hcl. unfold looking_up in *. norm.
      destruct (Math_round_div1000 (Date_now E (ticks (world m))) >? row_expires r)
        eqn:Hstale; cbn [fst snd].
      * destruct (finish_load_new m1 ttl cb "Session Expired")
          as (m' & Hs & Hself & _ & _ & _ & _ & Hk).
        { eapply configured_same_options; [exact Hc|exact Hh1|rewrite Hself1; reflexivity]. }
        exists m', "Session Expired". rewrite Hs, Hk, Hk1, Hself, Hd1. norm.
        split; [reflexivity|]. split; [reflexivity|]. discriminate.
      * rewrite finish_load_keep. eexists _, _. split; [reflexivity|].
        norm. rewrite calls_cons, Hk1, Hself1. norm. split; [reflexivity|].
        intros _. exists r, rest.
        split; [reflexivity|]. split; [exact Hp|]. split; [reflexivity|].
        rewrite Z.gtb_ltb in Hstale. apply Z.ltb_ge in Hstale. exact Hstale.
    + rewrite (classify_failure _ _ _ (or_intror eq_refl)). cbn [fst snd].
      rewrite finish_load_keep. eexists _, _. split; [reflexivity|].
      split; [reflexivity|]. intros Hm. destruct (terrible_not_empty _ Hm).
  - intros r rest Hres Hp.
    rewrite loadSession_runs_lookup. unfold _loadSession_callback.
    unfold bind at 1. rewrite Hres, (classify_unparsable _ _ _ _ Hp).
    eexists. split; reflexivity.
Qed.

(** ** Construction *)

Lemma extend_defaults (o : Options) :
  _extend o default_options =
    {| opt_expiration := Some (VNum 86400000);
       opt_logger := Some NoopLogger;
       opt_db := opt_db o |}.
Proof. reflexivity. Qed.

(** C4. Whenever [new Session(options)] returns an engine, [options] was
    a reference to an object with a [db]; after the call that very object
    holds expiration 86400000 and the no-op logger, whatever it held
    before, and its [db]; the engine's [options] is the same reference,
    its logger is the no-op logger, and the expiration it works with,
    already for the expiry computed at construction, is 86400000. *)
Theorem Session_new_overrides_options (opts : option nat) (w w' : World)
    (s : Session) :
  Session_new E opts w = (Returned s, w') ->
  exists l o d,
    opts = Some l
    /\ heap w !! l = Some o
    /\ opt_db o = Some d
    /\ options s = l
    /\ heap w' =
         <[l := {| opt_expiration := Some (VNum 86400000);
                   opt_logger := Some NoopLogger;
                   opt_db := Some d |}]> (heap w)
    /\ heap w' !! l =
         Some {| opt_expiration := Some (VNum 86400000);
                 opt_logger := Some NoopLogger;
                 opt_db := Some d |}
    /\ logger s = NoopLogger
    /\ db s = d
    /\ expires s = Math_round_div1000 (Date_now E (ticks w) + 86400000)
    /\ configured {| self := s; world := w' |} 86400000.
Proof.
  unfold Session_new. destruct opts as [l|]; [|discriminate].
  destruct (heap w !! l) as [o|] eqn:Ho; [|discriminate].
  assert (Hlt : (l < length (heap w))%nat) by (eapply lookup_lt_Some; exact Ho).
  cbn [with_heap heap]. rewrite list_lookup_insert_eq by exact Hlt.
  rewrite extend_defaults. cbn [opt_db opt_logger].
  destruct (opt_db o) as [d|] eqn:Hd; [|discriminate].
  rewrite (generateExpires_configured _ 86400000).
  2:{ eexists. cbn [self world heap options with_heap].
      rewrite list_lookup_insert_eq by exact Hlt. split; reflexivity. }
  norm. intros H. injection H as <- <-.
  exists l, o, d. norm.
  assert (Hl : <[l := {| opt_expiration := Some (VNum 86400000);
                         opt_logger := Some NoopLogger;
                         opt_db := Some d |}]> (heap w) !! l =
               Some {| opt_expiration := Some (VNum 86400000);
                       opt_logger := Some NoopLogger;
                       opt_db := Some d |})
    by (apply list_lookup_insert_eq; exact Hlt).
  repeat split; try reflexivity; try assumption.
  eexists. norm. split; [exact Hl|reflexivity].
Qed.

(** The middleware factory treats its options the same way. *)
Lemma ioSession_overrides_options (l : nat) (w : World) (o : Options) :
  heap w !! l = Some o ->
  ioSession (Some l) w =
    (Returned (Some NoopLogger),
     with_heap (<[l := {| opt_expiration := Some (VNum 86400000);
                          opt_logger := Some NoopLogger;
                          opt_db := opt_db o |}]> (heap w)) w).
Proof.
  intros Ho. unfold ioSession. rewrite Ho.
  cbn [with_heap heap].
  rewrite list_lookup_insert_eq by (eapply lookup_lt_Some; exact Ho).
  reflexivity.
Qed.

(** ** Reading and writing values *)

Lemma assoc_define_own (k : string) (v : value) (props : list (string * value)) :
  assoc k (define_own k v props) = Some v.
Proof.
  induction props as [|[k' v'] rest IH]; cbn [define_own assoc].
  - rewrite String.eqb_refl. reflexivity.
  - destruct (String.eqb k' k) eqn:Hk; cbn [assoc]; rewrite Hk; auto.
Qed.

Lemma lookup_chain_plain (k : string) (props : list (string * value)) :
  k <> "__proto__" ->
  exists slot, lookup_chain (VObj VObjectPrototype props) k = Returned slot
               /\ slot <> ProtoAccessor.
Proof.
  intros Hk. cbn [lookup_chain].
  destruct (assoc k props) as [v|]; [exists (Data v); split; [reflexivity|discriminate]|].
  destruct (String.eqb_spec k "__proto__"); [contradiction|].
  destruct (Object_prototype_member k);
    eexists; (split; [reflexivity|discriminate]).
Qed.

(** On an engine whose values are a plain object, a value other than
    [undefined] written under a name other than [__proto__] is read back. *)
Lemma set_then_get (m : Machine) (ttl : Z) (k : string) (v : value)
    (props : list (string * value)) :
  configured m ttl ->
  values (self m) = VObj VObjectPrototype props ->
  k <> "__proto__" ->
  v <> VUndefined ->
  exists m',
    set E k v m = (Returned tt, m')
    /\ values (self m') = VObj VObjectPrototype (define_own k v props)
    /\ fst (get k m') = Returned v.
Proof.
  intros Hc Hv Hk Hu.
  destruct (lookup_chain_plain k props Hk) as (slot & Hslot & Hacc).
  assert (Hput : PutV (values (self m)) k v =
                 Returned (VObj VObjectPrototype (define_own k v props))).
  { rewrite Hv. unfold PutV. rewrite Hslot. destruct slot; congruence. }
  unfold set. step. rewrite Hput. step.
  match goal with |- context [_saveSession E ?m1] =>
    destruct (saveSession_returns m1 ttl) as (m' & Hs & Hself & _);
    [eapply configured_same_options; [exact Hc|reflexivity|reflexivity]|] end.
  norm. exists m'. rewrite Hs. split; [reflexivity|].
  rewrite Hself. norm. split; [reflexivity|].
  unfold get. step. rewrite Hself. norm.
  unfold GetV. cbn [lookup_chain]. rewrite assoc_define_own.
  destruct v; try reflexivity. congruence.
Qed.

(** On an engine whose values are a plain object, a name that is neither
    an own property nor a member of [Object.prototype] reads as the empty
    string. *)
Lemma get_absent (m : Machine) (k : string) (props : list (string * value)) :
  values (self m) = VObj VObjectPrototype props ->
  assoc k props = None ->
  k <> "__proto__" ->
  Object_prototype_member k = VUndefined ->
  fst (get k m) = Returned (VStr empty).
Proof.
  intros Hv Ha Hk Hm. unfold get. step. rewrite Hv.
  unfold GetV. cbn [lookup_chain]. rewrite Ha.
  destruct (String.eqb_spec k "__proto__"); [contradiction|].
  rewrite Hm. reflexivity.
Qed.

(** ** What every operation keeps *)

Section Respects.

Variable R : Machine -> Machine -> Prop.
Hypothesis R_refl : forall m, R m m.
Hypothesis R_trans : forall a b c, R a b -> R b c -> R a c.
Hypothesis R_log : forall m lg level msg,
  R m (on_world (emit (EvLog lg level msg)) m).
Hypothesis R_tick : forall m, R m (on_world tick m).

Lemma respects_ret {A} (a : A) : respects R (ret a).
Proof using R_refl. intros m. apply R_refl. Qed.

Lemma respects_bind {A B} (c : M A) (k : A -> M B) :
  respects R c -> (forall a, respects R (k a)) -> respects R (bind c k).
Proof using R_trans.
  intros Hc Hk m. unfold bind. specialize (Hc m).
  destruct (c m) as [[a|e|] m1]; cbn [snd] in *; [|exact Hc|exact Hc].
  eapply R_trans; [exact Hc|apply Hk].
Qed.

Lemma respects_log (level msg : string) : respects R (log level msg).
Proof using R_log. intros m. apply R_log. Qed.

Lemma respects_this : respects R this.
Proof using R_refl. intros m. apply R_refl. Qed.

Lemma respects_DateNow : respects R (DateNow E).
Proof using R_tick. intros m. apply R_tick. Qed.

Lemma respects_deref (l : nat) : respects R (deref l).
Proof using R_refl.
  intros m. unfold deref. destruct (heap (world m) !! l); apply R_refl.
Qed.

Lemma respects_lift {A} (o : Outcome A) : respects R (lift o).
Proof using R_refl. intros m. apply R_refl. Qed.

Lemma respects_generateExpires : respects R (_generateExpires E).
Proof using R_refl R_trans R_log R_tick.
  unfold _generateExpires.
  apply respects_bind; [apply respects_log|intros _].
  apply respects_bind; [apply respects_DateNow|intros now].
  apply respects_bind; [apply respects_this|intros s].
  apply respects_bind; [apply respects_deref|intros o].
  destruct (opt_expiration o) as [[]|]; try (intros m; apply R_refl).
Qed.

Lemma respects_isExpired : respects R (_isExpired E).
Proof using R_refl R_trans R_log R_tick.
  unfold _isExpired.
  apply respects_bind; [apply respects_log|intros _].
  apply respects_bind; [apply respects_DateNow|intros now].
  apply respects_bind; [apply respects_this|intros s].
  apply respects_ret.
Qed.

Hypothesis R_query : forall m sql params,
  R m (on_world (emit (EvQuery sql params)) m).

Lemma respects_query (sql : string) (params : list SqlParam) :
  respects R (query sql params).
Proof using R_query. intros m. apply R_query. Qed.

Lemma respects_saveSession : respects R (_saveSession E).
Proof using R_refl R_trans R_log R_tick R_query.
  unfold _saveSession.
  apply respects_bind; [apply respects_log|intros _].
  apply respects_bind; [apply respects_this|intros s].
  apply respects_bind; [apply respects_generateExpires|intros e].
  apply respects_bind; [apply respects_log|intros _].
  destruct (negb (String.eqb (token s) empty)); [|apply respects_log].
  apply respects_bind; [apply respects_query|intros r].
  destruct (qr_results r); try apply respects_ret.
  apply respects_bind.
  - unfold _dbCreateError.
    apply respects_bind; [apply respects_log|intros _]. apply respects_ret.
  - intros script.
    apply respects_bind; [apply respects_log|intros _]. apply respects_log.
Qed.

Hypothesis R_update : forall m f,
  (forall s, options (f s) = options s /\ db (f s) = db s /\ logger (f s) = logger s) ->
  R m {| self := f (self m); world := world m |}.
Hypothesis R_draw : forall m, R m (on_world draw m).

Lemma respects_update (f : Session -> Session) :
  (forall s, options (f s) = options s /\ db (f s) = db s /\ logger (f s) = logger s) ->
  respects R (update f).
Proof using R_update. intros Hf m. apply R_update, Hf. Qed.

Lemma respects_uid (n : N) : respects R (uid E n).
Proof using R_draw. intros m. apply R_draw. Qed.

Lemma respects_classify (error : value) (results : Results) :
  respects R (classify_answer E error results).
Proof using R_refl R_trans R_log R_tick R_update.
  unfold classify_answer. destruct results as [|[|r rest]|].
  - apply respects_bind; [apply respects_update; auto|intros _].
    apply respects_bind; [apply respects_log|intros _]. apply respects_ret.
  - apply respects_bind; [apply respects_log|intros _]. apply respects_ret.
  - destruct (JSON_parse E (data r)); [|intros m; apply R_refl].
    apply respects_bind; [apply respects_update; auto|intros _].
    apply respects_bind; [apply respects_update; auto|intros _].
    apply respects_bind; [apply respects_isExpired|intros []].
    + apply respects_bind; [apply respects_log|intros _]. apply respects_ret.
    + apply respects_ret.
  - apply respects_bind; [apply respects_update; auto|intros _].
    apply respects_bind; [apply respects_log|intros _]. apply respects_ret.
Qed.

(** Lines 165-169: the new session, if one is due. *)
Lemma respects_renew (generateNew : bool) :
  respects R (if generateNew
              then t <- uid E 24;;
                   update (set_token t);;
                   e <- _generateExpires E;;
                   update (set_expires e);;
                   _saveSession E
              else ret tt).
Proof using R_refl R_trans R_log R_tick R_query R_update R_draw.
  destruct generateNew; [|apply respects_ret].
  apply respects_bind; [apply respects_uid|intros t].
  apply respects_bind; [apply respects_update; auto|intros _].
  apply respects_bind; [apply respects_generateExpires|intros e].
  apply respects_bind; [apply respects_update; auto|intros _].
  apply respects_saveSession.
Qed.

End Respects.

Lemma same_setup_refl (m : Machine) : same_setup m m.
Proof. repeat split. Qed.

Lemma same_setup_trans (a b c : Machine) :
  same_setup a b -> same_setup b c -> same_setup a c.
Proof.
  intros (H1 & H2 & H3 & H4) (K1 & K2 & K3 & K4).
  repeat split; congruence.
Qed.

Lemma same_setup_world (m : Machine) (f : World -> World) :
  (forall w, heap (f w) = heap w) -> same_setup m (on_world f m).
Proof. intros Hf. repeat split. apply Hf. Qed.

Lemma same_setup_update (m : Machine) (f : Session -> Session) :
  (forall s, options (f s) = options s /\ db (f s) = db s /\ logger (f s) = logger s) ->
  same_setup m {| self := f (self m); world := world m |}.
Proof. intros Hf. destruct (Hf (self m)) as (H1 & H2 & H3). repeat split; assumption. Qed.

Lemma same_setup_configured (m m' : Machine) (ttl : Z) :
  same_setup m m' -> configured m ttl -> configured m' ttl.
Proof.
  intros (H1 & _ & _ & H4) Hc. eapply configured_same_options; eauto.
Qed.

Lemma same_setup_saveSession : respects same_setup (_saveSession E).
Proof.
  apply respects_saveSession;
    [apply same_setup_refl | apply same_setup_trans | | | ];
    intros; apply same_setup_world; reflexivity.
Qed.

Lemma same_setup_classify (error : value) (results : Results) :
  respects same_setup (classify_answer E error results).
Proof.
  apply respects_classify;
    [apply same_setup_refl | apply same_setup_trans | | | apply same_setup_update];
    intros; apply same_setup_world; reflexivity.
Qed.

Lemma same_setup_finish_load (cb : value) (g : bool) (msg : string) :
  respects same_setup (finish_load E cb g msg).
Proof.
  unfold finish_load.
  apply respects_bind; [apply same_setup_trans| |intros _].
  - apply respects_renew;
      [apply same_setup_refl | apply same_setup_trans | | | | apply same_setup_update | ];
      intros; apply same_setup_world; reflexivity.
  - destruct (_isFunction cb) eqn:Hf; [|intros m; apply same_setup_refl].
    intros m. unfold bind, this, call. cbn [snd]. rewrite Hf.
    apply same_setup_world. reflexivity.
Qed.

Lemma same_setup_loadSession (tok : string) (cb : value) :
  respects same_setup (loadSession E tok cb).
Proof.
  intros m. rewrite loadSession_runs_lookup.
  eapply same_setup_trans with (b := looking_up m tok); [repeat split|].
  unfold _loadSession_callback.
  apply (respects_bind same_setup same_setup_trans);
    [apply same_setup_classify|intros gm; apply same_setup_finish_load].
Qed.

(** X13. No operation of the engine touches the objects of the store or
    replaces the engine's [options], [db] or [logger]: so for [set],
    [get], [clearSession], [loadSession] and the [getToken] handler,
    however they end.  An engine that is configured therefore stays so,
    with the same expiration. *)
Theorem operations_keep_the_setup (m : Machine) (ttl : Z) (k tok : string)
    (v cb : value) (lg : option Logger) (params : option string) :
  configured m ttl ->
  (same_setup m (snd (set E k v m))
   /\ same_setup m (snd (get k m))
   /\ same_setup m (snd (clearSession E m))
   /\ same_setup m (snd (loadSession E tok cb m))
   /\ same_setup m (snd (getToken_handler E lg params m)))
  /\ configured (snd (set E k v m)) ttl
  /\ configured (snd (clearSession E m)) ttl
  /\ configured (snd (loadSession E tok cb m)) ttl.
Proof.
  intros Hc.
  assert (Hset : same_setup m (snd (set E k v m))).
  { unfold set. step.
    destruct (PutV (values (self m)) k v) as [vs|e|];
      try (apply same_setup_world; reflexivity).
    step.
    eapply same_setup_trans; [|apply same_setup_saveSession]. repeat split. }
  assert (Hget : same_setup m (snd (get k m))).
  { unfold get. step.
    destruct (GetV (values (self m)) k) as [x|e|];
      try (apply same_setup_world; reflexivity).
    destruct (_isUndefined x); [apply same_setup_world; reflexivity|].
    step. destruct (GetV (values (self m)) k);
      apply same_setup_world; reflexivity. }
  assert (Hclear : same_setup m (snd (clearSession E m))).
  { unfold clearSession. step.
    eapply same_setup_trans; [|apply same_setup_saveSession]. repeat split. }
  pose proof (same_setup_loadSession tok cb m) as Hload.
  assert (Hhandler : same_setup m (snd (getToken_handler E lg params m))).
  { unfold getToken_handler. destruct lg as [l|]; [|apply same_setup_refl].
    step.
    eapply same_setup_trans; [|apply same_setup_loadSession]. repeat split. }
  split; [auto 10|].
  split; [|split]; eapply same_setup_configured; eauto.
Qed.

Lemma same_calls_refl (m : Machine) : same_calls m m.
Proof. reflexivity. Qed.

Lemma same_calls_trans (a b c : Machine) :
  same_calls a b -> same_calls b c -> same_calls a c.
Proof. unfold same_calls. congruence. Qed.

Lemma same_calls_classify (error : value) (results : Results) :
  respects same_calls (classify_answer E error results).
Proof.
  apply respects_classify;
    [apply same_calls_refl | apply same_calls_trans | | | ];
    intros; reflexivity.
Qed.

Lemma same_calls_renew (g : bool) :
  respects same_calls (if g
                       then t <- uid E 24;;
                            update (set_token t);;
                            e <- _generateExpires E;;
                            update (set_expires e);;
                            _saveSession E
                       else ret tt).
Proof.
  apply respects_renew;
    [apply same_calls_refl | apply same_calls_trans | | | | | ];
    intros; reflexivity.
Qed.

Lemma loadSession_calls (m : Machine) (tok : string) (cb : value) :
  let r := loadSession E tok cb m in
  calls (trace (world (snd r))) = calls (trace (world m))
  \/ (exists msg,
        _isFunction cb = true
        /\ fst r = Returned tt
        /\ calls (trace (world (snd r))) =
             (cb, [VStr (token (self (snd r))); VStr msg]) :: calls (trace (world m))).
Proof.
  cbv zeta.
  destruct (loadSession E tok cb m) as [o m'] eqn:Hrun. cbn [fst snd].
  rewrite loadSession_runs_lookup in Hrun.
  unfold _loadSession_callback in Hrun. unfold bind at 1 in Hrun.
  pose proof (same_calls_classify (qr_error (lookup m tok))
                (qr_results (lookup m tok)) (looking_up m tok)) as H1.
  destruct (classify_answer E (qr_error (lookup m tok))
              (qr_results (lookup m tok)) (looking_up m tok))
    as [[gm|e|] m1]; cbn [snd] in H1; unfold same_calls in H1;
    change (calls (trace (world (looking_up m tok)))) with (calls (trace (world m))) in H1;
    try (injection Hrun as <- <-; left; exact H1).
  unfold finish_load in Hrun. unfold bind at 1 in Hrun.
  pose proof (same_calls_renew (fst gm) m1) as H2.
  match type of Hrun with context [(if fst gm then ?a else ?b) m1] =>
    destruct ((if fst gm then a else b) m1) as [[u|e|] m2] end;
    cbn [snd] in H2; unfold same_calls in H2;
    try (injection Hrun as <- <-; left; congruence).
  destruct (_isFunction cb) eqn:Hf.
  - unfold bind, this, call in Hrun. rewrite Hf in Hrun.
    injection Hrun as <- <-.
    right. exists (snd gm). split; [reflexivity|]. split; [reflexivity|].
    norm. rewrite calls_cons. cbn [app]. rewrite H2, H1. reflexivity.
  - unfold ret in Hrun. injection Hrun as <- <-. left. congruence.
Qed.


(** ** Construction and the middleware, further *)

Lemma Session_new_heap (l : nat) (o : Options) (w : World) :
  heap w !! l = Some o ->
  <[l := _extend o default_options]> (heap w) !! l = Some (merged o).
Proof.
  intros Ho. rewrite list_lookup_insert_eq by (eapply lookup_lt_Some; exact Ho).
  reflexivity.
Qed.

(** What [new Session(options)] does when the object has a [db]. *)
Lemma Session_new_runs (l : nat) (o : Options) (d : DB) (w : World) :
  heap w !! l = Some o ->
  opt_db o = Some d ->
  Session_new E (Some l) w =
    (Returned {| options := l; db := d; logger := NoopLogger;
                 values := empty_object; token := empty;
                 expires := Math_round_div1000 (Date_now E (ticks w) + 86400000) |},
     {| heap := <[l := merged o]> (heap w);
        ticks := S (ticks w); draws := draws w;
        trace := EvLog NoopLogger "debug" expires_log :: trace w |}).
Proof.
  intros Ho Hd. unfold Session_new. rewrite Ho. cbn [with_heap heap].
  rewrite (Session_new_heap l o w Ho). cbn [merged opt_db opt_logger]. rewrite Hd.
  rewrite (generateExpires_configured _ 86400000).
  2:{ eexists. cbn [self world heap options with_heap].
      rewrite (Session_new_heap l o w Ho). split; reflexivity. }
  reflexivity.
Qed.

(** What [new Session(options)] does when the object has no [db]. *)
Lemma Session_new_throws (l : nat) (o : Options) (w : World) :
  heap w !! l = Some o ->
  opt_db o = None ->
  Session_new E (Some l) w =
    (Thrown (ThrownString missing_db), with_heap (<[l := merged o]> (heap w)) w).
Proof.
  intros Ho Hd. unfold Session_new. rewrite Ho. cbn [with_heap heap].
  rewrite (Session_new_heap l o w Ho). cbn [merged opt_db]. rewrite Hd. reflexivity.
Qed.

(** X1. [new Session(options)] on an object without [db] throws the
    string [Database connection must be provided through options.db]; by
    then the defaults are already written into the caller's object, and
    nothing was logged, read from the clock or sent.  With [options]
    undefined it throws a TypeError instead. *)
Theorem Session_new_refuses_missing_db (l : nat) (o : Options) (w : World) :
  heap w !! l = Some o ->
  opt_db o = None ->
  Session_new E (Some l) w =
    (Thrown (ThrownString missing_db), with_heap (<[l := merged o]> (heap w)) w)
  /\ heap (snd (Session_new E (Some l) w)) !! l = Some (merged o)
  /\ fst (Session_new E None w) = Thrown TypeError.
Proof.
  intros Ho Hd.
  pose proof (Session_new_throws l o w Ho Hd) as Hrun.
  split; [exact Hrun|]. split; [|reflexivity].
  rewrite Hrun. cbn [snd with_heap heap]. apply (Session_new_heap l o w Ho).
Qed.

(** X2. Every engine [new Session(options)] returns starts without a
    token and with the empty mapping as its values, so that [get] answers
    the empty string for every name that [Object.prototype] does not
    define; the construction read the clock once, drew no identifier,
    sent no query and called nothing. *)
Theorem Session_new_starts_empty (opts : option nat) (w w' : World) (s : Session) :
  Session_new E opts w = (Returned s, w') ->
  token s = empty
  /\ values s = empty_object
  /\ ticks w' = S (ticks w)
  /\ draws w' = draws w
  /\ queries (trace w') = queries (trace w)
  /\ calls (trace w') = calls (trace w)
  /\ (forall k, k <> "__proto__" -> Object_prototype_member k = VUndefined ->
        fst (get k {| self := s; world := w' |}) = Returned (VStr empty)).
Proof.
  intros Hrun.
  assert (exists l o d, opts = Some l /\ heap w !! l = Some o /\ opt_db o = Some d)
    as (l & o & d & -> & Ho & Hd).
  { unfold Session_new in Hrun. destruct opts as [l|]; [|discriminate].
    destruct (heap w !! l) as [o|] eqn:Ho; [|discriminate].
    cbn [with_heap heap] in Hrun. rewrite (Session_new_heap l o w Ho) in Hrun.
    cbn [merged opt_db] in Hrun.
    destruct (opt_db o) as [d|] eqn:Hd; [|discriminate]. exists l, o, d. auto. }
  rewrite (Session_new_runs l o d w Ho Hd) in Hrun. injection Hrun as <- <-.
  cbn [token values ticks draws trace].
  repeat split.
  intros k Hk Hm. eapply get_absent; [reflexivity|reflexivity|exact Hk|exact Hm].
Qed.

Lemma ioSession_runs (l : nat) (o : Options) (w : World) :
  heap w !! l = Some o ->
  ioSession (Some l) w =
    (Returned (Some NoopLogger), with_heap (<[l := merged o]> (heap w)) w).
Proof.
  intros Ho. unfold ioSession. rewrite Ho. cbn [with_heap heap].
  rewrite (Session_new_heap l o w Ho). reflexivity.
Qed.

Lemma merged_heap (l : nat) (o : Options) (w : World) :
  heap w !! l = Some o ->
  heap (with_heap (<[l := merged o]> (heap w)) w) !! l = Some (merged o).
Proof.
  intros Ho. cbn [with_heap heap].
  apply list_lookup_insert_eq. eapply lookup_lt_Some; exact Ho.
Qed.

(** X15. A middleware made from options without [db] is made without
    complaint; it is each connection that fails: the middleware throws
    the string of the constructor and [next] is not called. *)
Theorem middleware_without_db_fails_on_connection (l : nat) (o : Options)
    (w : World) (next : value) :
  heap w !! l = Some o ->
  opt_db o = None ->
  exists lg w1,
    ioSession (Some l) w = (Returned lg, w1)
    /\ fst (middleware E lg (Some l) next w1) = Thrown (ThrownString missing_db)
    /\ calls (trace (snd (middleware E lg (Some l) next w1))) = calls (trace w).
Proof.
  intros Ho Hd. eexists _, _. split; [apply (ioSession_runs l o w Ho)|].
  unfold middleware.
  rewrite (Session_new_throws l (merged o)
             (emit (EvLog NoopLogger "debug"
                      "Socket.io-mysql-session: middleware bound to socket")
                (with_heap (<[l := merged o]> (heap w)) w)));
    [split; reflexivity | apply (merged_heap l o w Ho) | exact Hd].
Qed.

(** X16. A connection to a middleware made from options with a [db]:
    the second merge of the defaults leaves the object as the first made
    it, [socket.session] is a new engine on that [db] with no token, the
    handler of [getToken] is installed, [next] is called once and last,
    and no query is sent. *)
Theorem middleware_connects (l : nat) (o : Options) (d : DB) (w : World)
    (next : string) :
  heap w !! l = Some o ->
  opt_db o = Some d ->
  exists lg w1 s w2,
    ioSession (Some l) w = (Returned lg, w1)
    /\ middleware E lg (Some l) (VFun next) w1 = (Returned s, w2)
    /\ heap w2 = heap w1
    /\ heap w2 !! l = Some (merged o)
    /\ options s = l /\ db s = d /\ logger s = NoopLogger
    /\ token s = empty /\ values s = empty_object
    /\ calls (trace w2) =
         (VFun next, []) ::
         (VFun "socket.on", [VStr "getToken"; VFun "getToken handler"]) ::
         calls (trace w)
    /\ queries (trace w2) = queries (trace w).
Proof.
  intros Ho Hd. eexists _, _, _, _.
  split; [apply (ioSession_runs l o w Ho)|].
  unfold middleware.
  rewrite (Session_new_runs l (merged o) d
             (emit (EvLog NoopLogger "debug"
                      "Socket.io-mysql-session: middleware bound to socket")
                (with_heap (<[l := merged o]> (heap w)) w)));
    [| apply (merged_heap l o w Ho) | exact Hd].
  cbn [_isFunction]. split; [reflexivity|].
  cbn [emit heap ticks draws trace with_heap options db logger token values].
  assert (Hlt : (l < length (heap w))%nat) by (eapply lookup_lt_Some; exact Ho).
  assert (Hidem : <[l := merged (merged o)]> (<[l := merged o]> (heap w)) =
                  <[l := merged o]> (heap w)).
  { change (merged (merged o)) with (merged o). apply list_insert_insert_eq. }
  rewrite Hidem.
  split; [reflexivity|].
  split; [apply list_lookup_insert_eq; exact Hlt|].
  repeat split.
Qed.

(** X17. The handler of [getToken] treats a message without an object as
    one with the empty token, and answers with at most one [gotToken],
    which carries the token of the engine as it then is; it calls nothing
    else. *)
Theorem getToken_replies_at_most_once (m : Machine) (lg : Logger)
    (params : option string) :
  getToken_handler E (Some lg) None m = getToken_handler E (Some lg) (Some empty) m
  /\ let r := getToken_handler E (Some lg) params m in
     (calls (trace (world (snd r))) = calls (trace (world m))
      \/ exists errors,
           fst r = Returned tt
           /\ calls (trace (world (snd r))) =
                (gotToken, [VStr (token (self (snd r))); VStr errors])
                :: calls (trace (world m))).
Proof.
  split; [reflexivity|]. cbv zeta.
  unfold getToken_handler. unfold bind at 1. cbn [fst snd].
  match goal with |- context [loadSession E ?tok gotToken ?m1] =>
    destruct (loadSession_calls m1 tok gotToken) as [H|(msg & _ & H1 & H2)] end.
  - left. exact H.
  - right. exists msg. split; [exact H1|exact H2].
Qed.

(** ** Loading and saving, further *)

Lemma fresh_row_found (m : Machine) (tok cb : string) (r : Row)
    (rest : list Row) (v : value) :
  qr_results (lookup m tok) = ResRows (r :: rest) ->
  JSON_parse E (data r) = Some v ->
  Math_round_div1000 (Date_now E (ticks (world m))) <= row_expires r ->
  exists m',
    loadSession E tok (VFun cb) m = (Returned tt, m')
    /\ self m' = set_expires (row_expires r) (set_values v (set_token tok (self m)))
    /\ queries (trace (world m')) = (select_sql, [PStr tok]) :: queries (trace (world m))
    /\ calls (trace (world m')) =
         (VFun cb, [VStr tok; VStr empty]) :: calls (trace (world m)).
Proof.
  intros Hres Hparse Hfresh.
  rewrite loadSession_runs_lookup. unfold _loadSession_callback.
  unfold bind at 1. rewrite Hres.
  destruct (classify_found (looking_up m tok) (qr_error (lookup m tok)) r rest v Hparse)
    as (m1 & Hcl & Hself1 & _ & _ & _ & Hq1 & Hk1).
  rewrite Hcl. unfold looking_up in *. norm.
  apply Z.ltb_ge in Hfresh. rewrite Z.gtb_ltb, Hfresh. cbn [fst snd].
  rewrite finish_load_keep. eexists. split; [reflexivity|].
  norm. rewrite calls_cons, queries_cons, Hq1, Hk1, Hself1. norm.
  repeat split.
Qed.

(** X3. When the lookup finds a row whose data parses and whose expiry
    is not before the clock (equal counts as not expired), [loadSession]
    keeps the token it was given, takes the row's data as its values and
    the row's expiry as its own, sends nothing but the lookup, and calls
    the callback once with the token and the empty message. *)
Theorem fresh_row_is_loaded (m : Machine) (tok cb : string) (r : Row)
    (rest : list Row) (v : value) :
  qr_results (lookup m tok) = ResRows (r :: rest) ->
  JSON_parse E (data r) = Some v ->
  Math_round_div1000 (Date_now E (ticks (world m))) <= row_expires r ->
  exists m',
    loadSession E tok (VFun cb) m = (Returned tt, m')
    /\ self m' = set_expires (row_expires r) (set_values v (set_token tok (self m)))
    /\ queries (trace (world m')) = (select_sql, [PStr tok]) :: queries (trace (world m))
    /\ calls (trace (world m')) =
         (VFun cb, [VStr tok; VStr empty]) :: calls (trace (world m)).
Proof. exact (fresh_row_found m tok cb r rest v). Qed.

Lemma round_monotone (a b : Z) :
  a <= b -> Math_round_div1000 a <= Math_round_div1000 b.
Proof. intros H. unfold Math_round_div1000. apply Z.div_le_mono; lia. Qed.

Lemma round_later (a b : Z) :
  a + 1000 <= b -> Math_round_div1000 a < Math_round_div1000 b.
Proof.
  intros H. unfold Math_round_div1000.
  assert (Hs : (a + 500) / 1000 + 1 = (a + 500 + 1 * 1000) / 1000)
    by (rewrite Z.div_add by lia; reflexivity).
  assert (Hm : (a + 500 + 1 * 1000) / 1000 <= (b + 500) / 1000)
    by (apply Z.div_le_mono; lia).
  lia.
Qed.

(** X6. The expiry [_generateExpires] computes is the number of seconds
    nearest to the clock plus the expiration, both in milliseconds: it is
    off by at most half a second, and a later clock never gives an
    earlier expiry. *)
Theorem generateExpires_nearest_second (m m2 : Machine) (ttl : Z) :
  configured m ttl ->
  configured m2 ttl ->
  exists e e2,
    fst (_generateExpires E m) = Returned e
    /\ fst (_generateExpires E m2) = Returned e2
    /\ 1000 * e - 500 <= Date_now E (ticks (world m)) + ttl < 1000 * e + 500
    /\ (Date_now E (ticks (world m)) <= Date_now E (ticks (world m2)) -> e <= e2).
Proof.
  intros Hc Hc2.
  rewrite (generateExpires_configured m ttl Hc), (generateExpires_configured m2 ttl Hc2).
  eexists _, _. split; [reflexivity|]. split; [reflexivity|]. split.
  - unfold Math_round_div1000.
    pose proof (Z.div_mod (Date_now E (ticks (world m)) + ttl + 500) 1000 ltac:(lia)).
    pose proof (Z.mod_pos_bound (Date_now E (ticks (world m)) + ttl + 500) 1000 ltac:(lia)).
    lia.
  - intros Hle. apply round_monotone. lia.
Qed.

(** X7. When the upsert of a save fails (the driver hands over no
    results), the save still returns normally and leaves the engine as
    it was; the failure only reaches the logger, as two errors: the text
    [unable to save session] with the statement that creates the table,
    then the rendered error. *)
Theorem failed_save_is_only_logged (m : Machine) (ttl : Z) :
  configured m ttl ->
  token (self m) <> empty ->
  qr_results (save_answer E m ttl) = ResUndefined ->
  exists m' script earlier,
    _saveSession E m = (Returned tt, m')
    /\ self m' = self m
    /\ fst (_dbCreateError m) = Returned script
    /\ trace (world m') =
         EvLog (logger (self m)) "error" (util_inspect E (qr_error (save_answer E m ttl)))
         :: EvLog (logger (self m)) "error"
              ("Socket.io-mysql-session: unable to save session. You might need to create the table. "
               ++ nl ++ script)
         :: earlier
    /\ calls (trace (world m')) = calls (trace (world m)).
Proof.
  intros (o & Ho & Ht) Htok Hres.
  unfold _saveSession, _generateExpires. step.
  rewrite Ho. step. rewrite Ht. step.
  destruct (String.eqb_spec (token (self m)) empty) as [Heq|_]; [contradiction|].
  cbn [negb]. step.
  match goal with |- context [qr_results ?r] =>
    change r with (save_answer E m ttl) end.
  match goal with |- context [qr_error ?r] =>
    change r with (save_answer E m ttl) end.
  rewrite Hres. unfold _dbCreateError. step.
  eexists _, _, _. split; [reflexivity|]. repeat split.
Qed.

(** ** A save and the next load, on a table *)

Lemma filter_upsert_row (t : string) (e : Z) (d : string) (table : list Row) :
  filter (fun x => String.eqb (sessionId x) t) (upsert_row (row_of t e d) table)
  = [row_of t e d].
Proof.
  unfold upsert_row. cbn [row_of sessionId].
  rewrite filter_cons_True by (cbn [sessionId]; rewrite String.eqb_refl; exact I).
  f_equal. induction table as [|x rest IH]; [reflexivity|].
  destruct (String.eqb (sessionId x) t) eqn:Hx.
  - rewrite filter_cons_False by (rewrite Hx; cbn; tauto). exact IH.
  - rewrite filter_cons_True by (rewrite Hx; exact I).
    rewrite filter_cons_False by (rewrite Hx; cbn; tauto). exact IH.
Qed.

(** On a table, the lookup of a token right after its upsert finds the
    row of that upsert and no other. *)
Lemma lookup_after_upsert (init : list Row) (m : Machine) (t : string) (e : Z)
    (d : string) (earlier : list (string * list SqlParam)) :
  db (self m) = table_db init ->
  queries (trace (world m)) = (upsert_sql, upsert_params t e d) :: earlier ->
  lookup m t = {| qr_error := VNull; qr_results := ResRows [row_of t e d] |}.
Proof.
  intros Hdb Hq. unfold lookup. rewrite Hdb, Hq.
  unfold table_db. cbn [db_query]. rewrite String.eqb_refl.
  unfold table_after. cbn [fold_right apply_query upsert_params].
  rewrite String.eqb_refl. fold (row_of t e d).
  rewrite filter_upsert_row. reflexivity.
Qed.

(** What [set] leaves behind on an engine that has a token. *)
Lemma set_saves (m : Machine) (ttl : Z) (k : string) (v vs : value) :
  configured m ttl ->
  token (self m) <> empty ->
  PutV (values (self m)) k v = Returned vs ->
  exists m',
    set E k v m = (Returned tt, m')
    /\ self m' = set_values vs (self m)
    /\ heap (world m') = heap (world m)
    /\ ticks (world m') = S (ticks (world m))
    /\ draws (world m') = draws (world m)
    /\ queries (trace (world m')) =
         (upsert_sql,
          upsert_params (token (self m))
            (Math_round_div1000 (Date_now E (ticks (world m)) + ttl))
            (JSON_stringify E vs))
         :: queries (trace (world m))
    /\ calls (trace (world m')) = calls (trace (world m)).
Proof.
  intros Hc Htok Hput. unfold set. step. rewrite Hput. step.
  match goal with |- context [_saveSession E ?m1] =>
    destruct (saveSession_returns m1 ttl) as (m' & Hs & Hself & Hh & Ht & Hd & Hq & Hk);
    [eapply configured_same_options; [exact Hc|reflexivity|reflexivity]|] end.
  norm. unfold upsert_of in Hq. norm.
  destruct (String.eqb_spec (token (self m)) empty); [contradiction|].
  rewrite queries_cons in Hq. rewrite calls_cons in Hk. cbn [app] in Hq, Hk.
  exists m'. rewrite Hs. repeat split; assumption.
Qed.

(** X4. On a table, what [set] saves is what the next load finds: an
    engine on the same table that loads the token before the clock has
    passed the expiration gets the token back with the empty message, and
    has the saved values and the saved expiry, provided [JSON.parse]
    gives back the values [JSON.stringify] was given. *)
Theorem saved_session_is_reloaded (init : list Row) (m : Machine) (s2 : Session)
    (ttl : Z) (k cb : string) (v vs : value) :
  db (self m) = table_db init ->
  db s2 = table_db init ->
  configured m ttl ->
  token (self m) <> empty ->
  PutV (values (self m)) k v = Returned vs ->
  JSON_parse E (JSON_stringify E vs) = Some vs ->
  Date_now E (S (ticks (world m))) <= Date_now E (ticks (world m)) + ttl ->
  let saved := snd (set E k v m) in
  let r := loadSession E (token (self m)) (VFun cb)
             {| self := s2; world := world saved |} in
  fst r = Returned tt
  /\ token (self (snd r)) = token (self m)
  /\ values (self (snd r)) = vs
  /\ expires (self (snd r)) = Math_round_div1000 (Date_now E (ticks (world m)) + ttl)
  /\ calls (trace (world (snd r))) =
       (VFun cb, [VStr (token (self m)); VStr empty]) :: calls (trace (world m)).
Proof.
  intros _ Hdb2 Hc Htok Hput Hjson Hclock saved r. subst saved r.
  destruct (set_saves m ttl k v vs Hc Htok Hput)
    as (m1 & Hset & _ & _ & Ht1 & _ & Hq1 & Hk1).
  rewrite Hset. cbn [snd].
  set (m2 := {| self := s2; world := world m1 |}).
  pose proof (lookup_after_upsert init m2 _ _ _ _ Hdb2 Hq1) as Hlook.
  destruct (fresh_row_found m2 (token (self m)) cb
              (row_of (token (self m))
                 (Math_round_div1000 (Date_now E (ticks (world m)) + ttl))
                 (JSON_stringify E vs)) [] vs)
    as (m' & Hrun & Hself & _ & Hk).
  - rewrite Hlook. reflexivity.
  - exact Hjson.
  - cbn [row_of row_expires]. subst m2. cbn [world]. rewrite Ht1.
    apply round_monotone. exact Hclock.
  - rewrite Hrun. cbn [fst snd]. rewrite Hk, Hself. subst m2. norm.
    rewrite Hk1. repeat split.
Qed.

(** X5. On a table, a session is replaced once the clock is a second or
    more past its expiration: the engine that then loads the token is
    given a new one, drawn from the generator, with the message
    [Session Expired]. *)
Theorem saved_session_expires (init : list Row) (m : Machine) (s2 : Session)
    (ttl ttl2 : Z) (k cb : string) (v vs : value) :
  db (self m) = table_db init ->
  db s2 = table_db init ->
  configured m ttl ->
  token (self m) <> empty ->
  PutV (values (self m)) k v = Returned vs ->
  JSON_parse E (JSON_stringify E vs) = Some vs ->
  Date_now E (ticks (world m)) + ttl + 1000 <= Date_now E (S (ticks (world m))) ->
  let saved := snd (set E k v m) in
  configured {| self := s2; world := world saved |} ttl2 ->
  let r := loadSession E (token (self m)) (VFun cb)
             {| self := s2; world := world saved |} in
  let t := uid_sync E (draws (world m)) 24 in
  fst r = Returned tt
  /\ token (self (snd r)) = t
  /\ calls (trace (world (snd r))) =
       (VFun cb, [VStr t; VStr "Session Expired"]) :: calls (trace (world m)).
Proof.
  intros _ Hdb2 Hc Htok Hput Hjson Hclock saved Hc2 r t. subst saved r t.
  destruct (set_saves m ttl k v vs Hc Htok Hput)
    as (m1 & Hset & _ & _ & Ht1 & Hd1 & Hq1 & Hk1).
  rewrite Hset in *. cbn [snd] in *.
  set (m2 := {| self := s2; world := world m1 |}) in *.
  pose proof (lookup_after_upsert init m2 _ _ _ _ Hdb2 Hq1) as Hlook.
  assert (exists m',
            loadSession E (token (self m)) (VFun cb) m2 = (Returned tt, m')
            /\ token (self m') = uid_sync E (draws (world m)) 24
            /\ calls (trace (world m')) =
                 (VFun cb, [VStr (uid_sync E (draws (world m)) 24); VStr "Session Expired"])
                 :: calls (trace (world m)))
    as (m' & Hrun & Htok' & Hcalls).
  { rewrite loadSession_runs_lookup. unfold _loadSession_callback.
    unfold bind at 1. rewrite Hlook. cbn [qr_results qr_error].
    destruct (classify_found (looking_up m2 (token (self m))) VNull
                (row_of (token (self m))
                   (Math_round_div1000 (Date_now E (ticks (world m)) + ttl))
                   (JSON_stringify E vs)) [] vs Hjson)
      as (m3 & Hcl & Hself3 & Hh3 & Ht3 & Hd3 & Hq3 & Hk3).
    rewrite Hcl. unfold looking_up in *. subst m2. norm.
    cbn [row_of row_expires] in *. rewrite Ht1.
    assert (Hstale : (Math_round_div1000 (Date_now E (S (ticks (world m)))) >?
                      Math_round_div1000 (Date_now E (ticks (world m)) + ttl)) = true).
    { apply Z.gtb_gt, Z.lt_gt, round_later. lia. }
    rewrite Hstale. cbn [fst snd].
    destruct (finish_load_new m3 ttl2 cb "Session Expired")
      as (m' & Hs & Hself & _ & _ & _ & _ & Hk).
    { eapply configured_same_options; [exact Hc2|exact Hh3|rewrite Hself3; reflexivity]. }
    exists m'. rewrite Hs, Hself, Hk, Hk3, Hd3. norm.
    repeat rewrite calls_cons. cbn [app]. rewrite Hd1, Hk1.
    repeat split. }
  rewrite Hrun. cbn [fst snd]. auto.
Qed.

(** ** Reading and writing values, further *)

(** X8. Whatever the values hold, [get] changes nothing but the log, and
    what it returns is never [undefined]: the empty string stands for
    it. *)
Theorem get_never_returns_undefined (m : Machine) (k : string) :
  snd (get k m) =
    on_world (emit (EvLog (logger (self m)) "debug"
                      ("Socket.io-mysql-session: getting " ++ k ++ " from session."))) m
  /\ (forall v, fst (get k m) = Returned v -> v <> VUndefined).
Proof.
  unfold get. step.
  destruct (GetV (values (self m)) k) as [x|e|] eqn:Hg; cbn [fst snd].
  - destruct (_isUndefined x) eqn:Hx; step.
    + split; [reflexivity|]. intros v Hv. injection Hv as <-. discriminate.
    + split; [reflexivity|].
      intros v Hv. injection Hv as <-. intros ->. discriminate.
  - split; [reflexivity|]. discriminate.
  - split; [reflexivity|]. discriminate.
Qed.

(** X9. A row whose data is the JSON text [null] is loaded like any
    other, with the empty message; from then on the values are [null],
    and [set] and [get] throw a TypeError, [set] before it saves
    anything. *)
Theorem null_data_breaks_set_and_get (m : Machine) (tok cb k : string)
    (r : Row) (rest : list Row) (v : value) :
  qr_results (lookup m tok) = ResRows (r :: rest) ->
  JSON_parse E (data r) = Some VNull ->
  Math_round_div1000 (Date_now E (ticks (world m))) <= row_expires r ->
  exists m',
    loadSession E tok (VFun cb) m = (Returned tt, m')
    /\ calls (trace (world m')) =
         (VFun cb, [VStr tok; VStr empty]) :: calls (trace (world m))
    /\ values (self m') = VNull
    /\ fst (set E k v m') = Thrown TypeError
    /\ queries (trace (world (snd (set E k v m')))) = queries (trace (world m'))
    /\ fst (get k m') = Thrown TypeError.
Proof.
  intros Hres Hparse Hfresh.
  destruct (fresh_row_found m tok cb r rest VNull Hres Hparse Hfresh)
    as (m' & Hrun & Hself & _ & Hk).
  exists m'. split; [exact Hrun|]. split; [exact Hk|].
  assert (Hv : values (self m') = VNull) by (rewrite Hself; reflexivity).
  split; [exact Hv|].
  unfold set, get. step. rewrite Hv. repeat split.
Qed.

Lemma assoc_define_own_other (k k' : string) (v : value)
    (props : list (string * value)) :
  k <> k' -> assoc k' (define_own k v props) = assoc k' props.
Proof.
  intros Hne. induction props as [|[k0 v0] rest IH]; cbn [define_own assoc].
  - destruct (String.eqb_spec k k'); [contradiction|reflexivity].
  - destruct (String.eqb_spec k0 k) as [->|Hk0]; cbn [assoc].
    + destruct (String.eqb_spec k k'); [contradiction|reflexivity].
    + rewrite IH. reflexivity.
Qed.

(** What [set] does on an engine whose values are a plain object. *)
Lemma set_on_plain (m : Machine) (ttl : Z) (k : string) (v : value)
    (props : list (string * value)) :
  configured m ttl ->
  values (self m) = VObj VObjectPrototype props ->
  k <> "__proto__" ->
  exists m',
    set E k v m = (Returned tt, m')
    /\ self m' = set_values (VObj VObjectPrototype (define_own k v props)) (self m)
    /\ configured m' ttl
    /\ queries (trace (world m')) =
         (upsert_of E (set_values (VObj VObjectPrototype (define_own k v props)) (self m))
            (Date_now E (ticks (world m))) ttl
          ++ queries (trace (world m)))%list.
Proof.
  intros Hc Hv Hk.
  destruct (lookup_chain_plain k props Hk) as (slot & Hslot & Hacc).
  assert (Hput : PutV (values (self m)) k v =
                 Returned (VObj VObjectPrototype (define_own k v props))).
  { rewrite Hv. unfold PutV. rewrite Hslot. destruct slot; congruence. }
  unfold set. step. rewrite Hput. step.
  match goal with |- context [_saveSession E ?m1] =>
    destruct (saveSession_returns m1 ttl) as (m' & Hs & Hself & Hh & _ & _ & Hq & _);
    [eapply configured_same_options; [exact Hc|reflexivity|reflexivity]|] end.
  norm. rewrite queries_cons in Hq. cbn [app] in Hq.
  exists m'. rewrite Hs. split; [reflexivity|]. split; [exact Hself|].
  split; [|exact Hq].
  eapply configured_same_options; [exact Hc|exact Hh|rewrite Hself; reflexivity].
Qed.

(** What [get] reads from a plain object. *)
Lemma get_on_plain (m : Machine) (k : string) (props : list (string * value)) :
  values (self m) = VObj VObjectPrototype props ->
  k <> "__proto__" ->
  fst (get k m) =
    Returned (match assoc k props with
              | Some v => if _isUndefined v then VStr empty else v
              | None =>
                  if _isUndefined (Object_prototype_member k) then VStr empty
                  else Object_prototype_member k
              end).
Proof.
  intros Hv Hk. unfold get. step. rewrite Hv.
  unfold GetV. cbn [lookup_chain].
  destruct (assoc k props) as [x|].
  - destruct (_isUndefined x); reflexivity.
  - destruct (String.eqb_spec k "__proto__"); [contradiction|].
    destruct (Object_prototype_member k); reflexivity.
Qed.

(** X10. On an engine whose values are a plain object, [set] under one
    name leaves what [get] answers for every other name as it was. *)
Theorem set_leaves_other_names (m : Machine) (ttl : Z) (k k' : string)
    (v : value) (props : list (string * value)) :
  configured m ttl ->
  values (self m) = VObj VObjectPrototype props ->
  k <> "__proto__" ->
  k' <> "__proto__" ->
  k <> k' ->
  fst (set E k v m) = Returned tt
  /\ fst (get k' (snd (set E k v m))) = fst (get k' m).
Proof.
  intros Hc Hv Hk Hk' Hne.
  destruct (set_on_plain m ttl k v props Hc Hv Hk) as (m' & Hs & Hself & _).
  rewrite Hs. cbn [fst snd]. split; [reflexivity|].
  rewrite (get_on_plain m' k' (define_own k v props)) by (try rewrite Hself; auto).
  rewrite (get_on_plain m k' props Hv Hk').
  rewrite assoc_define_own_other by exact Hne. reflexivity.
Qed.

(** X11. On an engine whose values are a plain object, what [get]
    answers for a name other than [__proto__] is the value last [set]
    under it, and the empty string when that value is [undefined]. *)
Theorem get_answers_last_set (m : Machine) (ttl : Z) (k : string)
    (v1 v2 : value) (props : list (string * value)) :
  configured m ttl ->
  values (self m) = VObj VObjectPrototype props ->
  k <> "__proto__" ->
  let once := snd (set E k v1 m) in
  let twice := snd (set E k v2 once) in
  fst (set E k v1 m) = Returned tt
  /\ fst (get k once) = Returned (if _isUndefined v1 then VStr empty else v1)
  /\ fst (set E k v2 once) = Returned tt
  /\ fst (get k twice) = Returned (if _isUndefined v2 then VStr empty else v2).
Proof.
  intros Hc Hv Hk once twice. subst once twice.
  destruct (set_on_plain m ttl k v1 props Hc Hv Hk) as (m1 & Hs1 & Hself1 & Hc1 & _).
  rewrite Hs1. cbn [fst snd].
  assert (Hv1 : values (self m1) = VObj VObjectPrototype (define_own k v1 props))
    by (rewrite Hself1; reflexivity).
  destruct (set_on_plain m1 ttl k v2 _ Hc1 Hv1 Hk) as (m2 & Hs2 & Hself2 & _).
  rewrite Hs2. cbn [fst snd].
  rewrite (get_on_plain m1 k _ Hv1 Hk), assoc_define_own.
  rewrite (get_on_plain m2 k (define_own k v2 (define_own k v1 props)))
    by (try rewrite Hself2; auto).
  rewrite assoc_define_own. auto.
Qed.

Lemma same_self_saveSession : respects same_self (_saveSession E).
Proof.
  apply respects_saveSession; unfold same_self; [reflexivity|congruence| | | ];
    intros; reflexivity.
Qed.

(** X12. After [clearSession], however its save ends, the values are the
    empty mapping and [get] answers the empty string for every name that
    [Object.prototype] does not define, whatever was set before. *)
Theorem clearSession_forgets_everything (m : Machine) (k : string) :
  k <> "__proto__" ->
  Object_prototype_member k = VUndefined ->
  values (self (snd (clearSession E m))) = empty_object
  /\ token (self (snd (clearSession E m))) = token (self m)
  /\ fst (get k (snd (clearSession E m))) = Returned (VStr empty).
Proof.
  intros Hk Hm.
  assert (Hself : self (snd (clearSession E m)) = set_values empty_object (self m)).
  { unfold clearSession. step.
    match goal with |- context [_saveSession E ?m1] =>
      exact (same_self_saveSession m1) end. }
  rewrite Hself. split; [reflexivity|]. split; [reflexivity|].
  eapply get_absent; [rewrite Hself; reflexivity|reflexivity|exact Hk|exact Hm].
Qed.

(** X18. After a lookup that failed, the engine has no token: a [set]
    then returns normally and [get] answers the value, but no query is
    sent, so nothing of it reaches the table. *)
Theorem set_after_failed_load_is_not_saved (m : Machine) (ttl : Z)
    (tok cb k : string) (v : value) (props : list (string * value)) :
  configured m ttl ->
  qr_results (lookup m tok) = ResUndefined ->
  values (self m) = VObj VObjectPrototype props ->
  k <> "__proto__" ->
  let loaded := snd (loadSession E tok (VFun cb) m) in
  token (self loaded) = empty
  /\ fst (set E k v loaded) = Returned tt
  /\ queries (trace (world (snd (set E k v loaded)))) = queries (trace (world loaded))
  /\ fst (get k (snd (set E k v loaded))) =
       Returned (if _isUndefined v then VStr empty else v).
Proof.
  intros Hc Hres Hv Hk loaded.
  assert (exists m0, loadSession E tok (VFun cb) m = (Returned tt, m0)
                     /\ self m0 = set_token empty (self m)
                     /\ heap (world m0) = heap (world m))
    as (m0 & Hrun & Hself & Hheap).
  { rewrite loadSession_runs_lookup. unfold _loadSession_callback.
    unfold bind at 1. rewrite (classify_failure _ _ _ (or_introl Hres)).
    cbn [fst snd]. rewrite finish_load_keep.
    eexists. split; [reflexivity|]. split; reflexivity. }
  subst loaded. rewrite Hrun. cbn [snd]. set (loaded := m0) in *.
  assert (Hc' : configured loaded ttl)
    by (eapply configured_same_options; [exact Hc|exact Hheap|rewrite Hself; reflexivity]).
  assert (Hv' : values (self loaded) = VObj VObjectPrototype props)
    by (rewrite Hself; exact Hv).
  split; [rewrite Hself; reflexivity|].
  destruct (set_on_plain loaded ttl k v props Hc' Hv' Hk) as (m' & Hs & Hself' & _ & Hq).
  rewrite Hs. cbn [fst snd]. split; [reflexivity|].
  split.
  - rewrite Hq, Hself. reflexivity.
  - rewrite (get_on_plain m' k (define_own k v props)) by (try rewrite Hself'; auto).
    rewrite assoc_define_own. reflexivity.
Qed.

End Facts.

(** ** The engine at work on concrete inputs *)

Example boot_builds_engine (d : DB) :
  boot E0 d = Some (engine_at d empty).
Proof. reflexivity. Qed.

Example first_uid_has_32_characters :
  first_uid = "AAAAAAAAAAAAAAAAAAAAAAAAAAAAAAA0" /\ String.length first_uid = 32%nat.
Proof. split; reflexivity. Qed.

Example engine_at_configured (d : DB) (tok : string) :
  configured (engine_at d tok) 86400000.
Proof. eexists. split; reflexivity. Qed.

(** A session saved by one engine is found by another on the same
    table: the token is kept, the message is empty and the value is read
    back. *)
Example reload_sees_saved_value :
  let d := table_db [] in
  let first := snd (loadSession E0 empty (VFun "cb") (engine_at d empty)) in
  let saved := snd (set E0 "userId" (VStr "42") first) in
  let second :=
    {| self := self (engine_at d empty); world := world saved |} in
  let reloaded := loadSession E0 first_uid (VFun "cb2") second in
  fst reloaded = Returned tt
  /\ token (self (snd reloaded)) = first_uid
  /\ head (calls (trace (world (snd reloaded)))) =
       Some (VFun "cb2", [VStr first_uid; VStr empty])
  /\ fst (get "userId" (snd reloaded)) = Returned (VStr "42").
Proof. vm_compute. repeat split. Qed.

(** C1. The guard of the new-session branch of [loadSession] holds for no
    token, so the empty token is looked up like any other: on a new engine
    over an empty table, [loadSession("", cb)] draws a token, saves the
    empty session under it, and calls [cb] with that token and the message
    [Session Not Found], not the empty message. *)
Theorem loadSession_empty_token_reports_not_found (cb : string) :
  (forall tok, _isUndefined (VStr tok) && _isEqual (VStr tok) empty = false)
  /\ boot E0 (table_db []) = Some (engine_at (table_db []) empty)
  /\ let r := loadSession E0 empty (VFun cb) (engine_at (table_db []) empty) in
     fst r = Returned tt
     /\ token (self (snd r)) = first_uid
     /\ queries (trace (world (snd r))) =
          [ (upsert_sql, upsert_params first_uid 1700086400 "{}");
            (select_sql, [PStr empty]) ]
     /\ calls (trace (world (snd r))) =
          [ (VFun cb, [VStr first_uid; VStr "Session Not Found"]) ].
Proof.
  split; [reflexivity|]. split; [reflexivity|].
  vm_compute. repeat split.
Qed.

(** C2. A stale row is found: the engine draws a new token and resets the
    expiry, but what it saves under the new token is the data of the old
    row, which it also keeps as its values; the saved session is not the
    empty one. *)
Theorem stale_row_data_is_saved_under_new_token (cb : string) :
  let m := engine_at (table_db [stale_row]) empty in
  let r := loadSession E0 "previous-token" (VFun cb) m in
  qr_results (lookup m "previous-token") = ResRows [stale_row]
  /\ Math_round_div1000 (Date_now E0 (ticks (world m))) > row_expires stale_row
  /\ fst r = Returned tt
  /\ token (self (snd r)) = first_uid
  /\ values (self (snd r)) = VObj VObjectPrototype [("userId", VStr "42")]
  /\ queries (trace (world (snd r))) =
       [ (upsert_sql, upsert_params first_uid 1700086400 stored_data);
         (select_sql, [PStr "previous-token"]) ]
  /\ stored_data <> JSON_stringify E0 empty_object
  /\ calls (trace (world (snd r))) =
       [ (VFun cb, [VStr first_uid; VStr "Session Expired"]) ].
Proof.
  vm_compute. repeat split; discriminate.
Qed.

(** C3, where the claim fails. An engine loads the empty token (three
    readings of the clock so far), and an hour later [set] saves it: the
    row is saved with expiry 1700090000, one day after the save, while the
    engine's own [expires] still is 1700086400, one day after the load. *)
Lemma set_leaves_engine_expiry_behind :
  let loaded := loadSession E1 empty (VFun "cb") (engine_at (table_db []) empty) in
  let m1 := snd loaded in
  let saved := set E1 "userId" (VStr "42") m1 in
  let m2 := snd saved in
  fst loaded = Returned tt
  /\ token (self m1) = first_uid
  /\ configured m1 86400000
  /\ fst saved = Returned tt
  /\ queries (trace (world m2)) =
       ("INSERT INTO session (sessionId, expires, data) VALUES (?, ?, ?) ON DUPLICATE KEY UPDATE expires = ?, data = ?",
        [PStr first_uid; PNum 1700090000; PStr stored_data;
         PNum 1700090000; PStr stored_data])
       :: queries (trace (world m1))
  /\ Math_round_div1000 (Date_now E1 (ticks (world m1)) + 86400000) = 1700090000
  /\ expires (self m2) = 1700086400
  /\ expires (self m2) <>
       Math_round_div1000 (Date_now E1 (ticks (world m1)) + 86400000).
Proof.
  cbv zeta.
  split; [vm_compute; reflexivity|].
  split; [vm_compute; reflexivity|].
  split; [eexists; split; vm_compute; reflexivity|].
  repeat split; vm_compute; congruence.
Qed.

(** C9, where the claim fails. On the engine as it is constructed, which
    has no token yet, two calls of [clearSession] return with the values
    empty and send no upsert at all. *)
Lemma clearSession_twice_on_new_engine_sends_nothing :
  let m := engine_at (table_db []) empty in
  let m1 := snd (clearSession E0 m) in
  let m2 := snd (clearSession E0 m1) in
  boot E0 (table_db []) = Some m
  /\ fst (clearSession E0 m) = Returned tt
  /\ fst (clearSession E0 m1) = Returned tt
  /\ values (self m1) = empty_object
  /\ values (self m2) = empty_object
  /\ queries (trace (world m2)) = [].
Proof. vm_compute. repeat split. Qed.


(** C6, where the claim fails. The row found holds the text of an object
    cut short: [JSON.parse] throws, the exception leaves [loadSession]'s
    lookup callback, and the callback of the caller is never called. *)
Lemma unparsable_row_throws :
  let m := engine_at (table_db [broken_row]) empty in
  let r := loadSession E0 "previous-token" (VFun "cb") m in
  qr_results (lookup m "previous-token") = ResRows [broken_row]
  /\ JSON_parse E0 (data broken_row) = None
  /\ fst r = Thrown SyntaxError
  /\ calls (trace (world (snd r))) = [].
Proof. vm_compute. repeat split. Qed.

(** C7. On a new engine, whose values are [{}]: the name [constructor] is
    not a key of the session, yet [get] answers the function [Object]
    inherited from [Object.prototype], not the empty string; and after
    [set("__proto__", "x")], which returns normally, [get("__proto__")]
    answers [Object.prototype], not ["x"]. *)
Theorem get_sees_inherited_properties :
  let m := engine_at (table_db []) first_uid in
  values (self m) = VObj VObjectPrototype []
  /\ fst (get "constructor" m) = Returned (VFun "Object")
  /\ fst (get "constructor" m) <> Returned (VStr empty)
  /\ fst (set E0 "__proto__" (VStr "x") m) = Returned tt
  /\ fst (get "__proto__" (snd (set E0 "__proto__" (VStr "x") m)))
       = Returned VObjectPrototype
  /\ fst (get "__proto__" (snd (set E0 "__proto__" (VStr "x") m)))
       <> Returned (VStr "x").
Proof. vm_compute. repeat split; discriminate. Qed.

(** ** The theorems applied *)

Lemma save_without_token_sends_nothing_witness :
  token (self (engine_at (table_db []) empty)) = empty
  /\ queries (trace (world (snd (_saveSession E0 (engine_at (table_db []) empty)))))
     = queries (trace (world (engine_at (table_db []) empty))).
Proof.
  split; [reflexivity|].
  apply (save_without_token_sends_nothing E0 (engine_at (table_db []) empty)).
  reflexivity.
Defined.

Lemma save_persists_sliding_expiry_witness :
  (exists m',
     _saveSession E0 (engine_at (table_db []) first_uid) = (Returned tt, m')
     /\ queries (trace (world m')) =
          [("INSERT INTO session (sessionId, expires, data) VALUES (?, ?, ?) ON DUPLICATE KEY UPDATE expires = ?, data = ?",
            [PStr first_uid; PNum 1700086400; PStr "{}"; PNum 1700086400; PStr "{}"])]
     /\ expires (self m') = 1700086400)
  /\ (exists m',
     loadSession E0 empty (VFun "cb") (engine_at (table_db []) empty) = (Returned tt, m')
     /\ queries (trace (world m')) =
          [("INSERT INTO session (sessionId, expires, data) VALUES (?, ?, ?) ON DUPLICATE KEY UPDATE expires = ?, data = ?",
            [PStr first_uid; PNum 1700086400; PStr "{}"; PNum 1700086400; PStr "{}"]);
           ("SELECT * FROM session WHERE sessionId = ?", [PStr empty])]
     /\ expires (self m') = 1700086400).
Proof.
  split.
  - destruct (save_persists_sliding_expiry E0 (engine_at (table_db []) first_uid)
                86400000 (engine_at_configured _ _)) as (Hsave & _ & _).
    destruct Hsave as (Hone & _ & _); [vm_compute; discriminate|].
    exact Hone.
  - destruct (save_persists_sliding_expiry E0 (engine_at (table_db []) empty)
                86400000 (engine_at_configured _ _)) as (_ & Hnew & _).
    apply (Hnew empty "cb"); [reflexivity|vm_compute; discriminate].
Defined.

Lemma clearSession_twice_witness :
  exists m1 m2,
    clearSession E0 (engine_at (table_db []) first_uid) = (Returned tt, m1)
    /\ clearSession E0 m1 = (Returned tt, m2)
    /\ values (self m1) = empty_object
    /\ values (self m2) = empty_object
    /\ queries (trace (world m2)) =
         [ ("INSERT INTO session (sessionId, expires, data) VALUES (?, ?, ?) ON DUPLICATE KEY UPDATE expires = ?, data = ?",
            [PStr first_uid; PNum 1700086400; PStr "{}"; PNum 1700086400; PStr "{}"]);
           ("INSERT INTO session (sessionId, expires, data) VALUES (?, ?, ?) ON DUPLICATE KEY UPDATE expires = ?, data = ?",
            [PStr first_uid; PNum 1700086400; PStr "{}"; PNum 1700086400; PStr "{}"]) ].
Proof.
  destruct (clearSession_twice E0 (engine_at (table_db []) first_uid) 86400000
              (engine_at_configured _ _))
    as (m1 & m2 & H1 & H2 & Hv1 & Hv2 & Hsent & _).
  destruct Hsent as [Hq1 Hq2]; [vm_compute; discriminate|].
  exists m1, m2. split; [exact H1|]. split; [exact H2|].
  split; [exact Hv1|]. split; [exact Hv2|].
  rewrite Hq2, Hq1. reflexivity.
Defined.

Lemma lookup_failure_clears_token_witness :
  exists m',
    loadSession E0 "previous-token" (VFun "cb") (engine_at failing_db empty)
      = (Returned tt, m')
    /\ token (self m') = empty
    /\ terrible E0 (VStr "ECONNREFUSED") <> empty
    /\ calls (trace (world m')) =
         [(VFun "cb", [VStr empty; VStr (terrible E0 (VStr "ECONNREFUSED"))])]
    /\ queries (trace (world m')) = [(select_sql, [PStr "previous-token"])].
Proof.
  apply (lookup_failure_clears_token E0 (engine_at failing_db empty)
           "previous-token" "cb").
  reflexivity.
Defined.


Lemma loadSession_notifies_unless_parse_fails_witness :
  exists m' msg,
    loadSession E0 "previous-token" (VFun "cb") (engine_at (table_db [sound_row]) empty)
      = (Returned tt, m')
    /\ calls (trace (world m')) = [(VFun "cb", [VStr (token (self m')); VStr msg])].
Proof.
  destruct (proj1 (loadSession_notifies_unless_parse_fails E0
                     (engine_at (table_db [sound_row]) empty) 86400000
                     "previous-token" "cb"
                     (engine_at_configured (table_db [sound_row]) empty)))
    as (m' & msg & Hrun & Hcalls & _).
  - intros r rest Hres. vm_compute in Hres. injection Hres as <- _.
    vm_compute. discriminate.
  - exists m', msg. split; [exact Hrun|exact Hcalls].
Defined.

Lemma Session_new_overrides_options_witness :
  exists s w',
    Session_new E0 (Some 0%nat) (world0 (caller_options (table_db []))) = (Returned s, w')
    /\ heap w' !! 0%nat =
         Some {| opt_expiration := Some (VNum 86400000);
                 opt_logger := Some NoopLogger;
                 opt_db := Some (table_db []) |}
    /\ logger s = NoopLogger
    /\ expires s = 1700086400.
Proof.
  eexists _, _. split; [reflexivity|].
  destruct (Session_new_overrides_options E0 (Some 0%nat)
              (world0 (caller_options (table_db []))) _ _ eq_refl)
    as (l & o & d & Hopts & Ho & Hd & _ & _ & Hheap & Hlog & _ & Hexp & _).
  injection Hopts as <-. injection Ho as <-. injection Hd as <-.
  split; [exact Hheap|]. split; [exact Hlog|exact Hexp].
Defined.

(** ** The further theorems applied *)

Lemma Session_new_refuses_missing_db_witness :
  fst (Session_new E0 (Some 0%nat) (world0 options_without_db))
    = Thrown (ThrownString missing_db)
  /\ heap (snd (Session_new E0 (Some 0%nat) (world0 options_without_db))) !! 0%nat
     = Some (merged options_without_db).
Proof.
  destruct (Session_new_refuses_missing_db E0 0%nat options_without_db
              (world0 options_without_db) eq_refl eq_refl) as (Hrun & Hheap & _).
  rewrite Hrun. split; [reflexivity|]. rewrite <- Hrun. exact Hheap.
Defined.

Lemma Session_new_starts_empty_witness :
  exists s w',
    Session_new E0 (Some 0%nat) (world0 (caller_options (table_db []))) = (Returned s, w')
    /\ token s = empty /\ values s = empty_object
    /\ queries (trace w') = [].
Proof.
  eexists _, _. split; [reflexivity|].
  destruct (Session_new_starts_empty E0 (Some 0%nat)
              (world0 (caller_options (table_db []))) _ _ eq_refl)
    as (Ht & Hv & _ & _ & Hq & _).
  split; [exact Ht|]. split; [exact Hv|exact Hq].
Defined.

Lemma fresh_row_is_loaded_witness :
  exists m',
    loadSession E0 "previous-token" (VFun "cb") (engine_at (table_db [sound_row]) empty)
      = (Returned tt, m')
    /\ values (self m') = user_42
    /\ token (self m') = "previous-token"
    /\ calls (trace (world m')) = [(VFun "cb", [VStr "previous-token"; VStr empty])].
Proof.
  destruct (fresh_row_is_loaded E0 (engine_at (table_db [sound_row]) empty)
              "previous-token" "cb" sound_row [] user_42)
    as (m' & Hrun & Hself & _ & Hk).
  - reflexivity.
  - vm_compute. reflexivity.
  - vm_compute. discriminate.
  - exists m'. split; [exact Hrun|]. rewrite Hself. split; [reflexivity|].
    split; [reflexivity|exact Hk].
Defined.

Lemma saved_session_is_reloaded_witness :
  let m := engine_at (table_db []) first_uid in
  let saved := snd (set E0 "userId" (VStr "42") m) in
  let r := loadSession E0 first_uid (VFun "cb")
             {| self := self (engine_at (table_db []) empty); world := world saved |} in
  fst r = Returned tt
  /\ token (self (snd r)) = first_uid
  /\ values (self (snd r)) = user_42.
Proof.
  cbv zeta.
  destruct (saved_session_is_reloaded E0 [] (engine_at (table_db []) first_uid)
              (self (engine_at (table_db []) empty)) 86400000 "userId" "cb"
              (VStr "42") user_42)
    as (H1 & H2 & H3 & _).
  - reflexivity.
  - reflexivity.
  - apply engine_at_configured.
  - vm_compute. discriminate.
  - reflexivity.
  - vm_compute. reflexivity.
  - vm_compute. discriminate.
  - split; [exact H1|]. split; [exact H2|exact H3].
Defined.

Lemma saved_session_expires_witness :
  let m := engine_at (table_db []) first_uid in
  let saved := snd (set E2 "userId" (VStr "42") m) in
  let r := loadSession E2 first_uid (VFun "cb")
             {| self := self (engine_at (table_db []) empty); world := world saved |} in
  fst r = Returned tt
  /\ token (self (snd r)) = uid_sync E2 0 24
  /\ calls (trace (world (snd r))) =
       [(VFun "cb", [VStr (uid_sync E2 0 24); VStr "Session Expired"])].
Proof.
  cbv zeta.
  apply (saved_session_expires E2 [] (engine_at (table_db []) first_uid)
           (self (engine_at (table_db []) empty)) 86400000 86400000 "userId" "cb"
           (VStr "42") user_42).
  - reflexivity.
  - reflexivity.
  - apply engine_at_configured.
  - vm_compute. discriminate.
  - reflexivity.
  - vm_compute. reflexivity.
  - vm_compute. discriminate.
  - eexists. split; vm_compute; reflexivity.
Defined.

Lemma generateExpires_nearest_second_witness :
  exists e,
    fst (_generateExpires E0 (engine_at (table_db []) empty)) = Returned e
    /\ 1000 * e - 500 <= Date_now E0 1 + 86400000 < 1000 * e + 500.
Proof.
  destruct (generateExpires_nearest_second E0 (engine_at (table_db []) empty)
              (engine_at (table_db []) empty) 86400000
              (engine_at_configured _ _) (engine_at_configured _ _))
    as (e & _ & He & _ & Hb & _).
  exists e. split; [exact He|exact Hb].
Defined.

Lemma failed_save_is_only_logged_witness :
  exists m',
    _saveSession E0 (engine_at failing_db first_uid) = (Returned tt, m')
    /\ self m' = self (engine_at failing_db first_uid)
    /\ calls (trace (world m')) = [].
Proof.
  destruct (failed_save_is_only_logged E0 (engine_at failing_db first_uid) 86400000)
    as (m' & script & earlier & Hrun & Hself & _ & _ & Hk).
  - apply engine_at_configured.
  - vm_compute. discriminate.
  - reflexivity.
  - exists m'. split; [exact Hrun|]. split; [exact Hself|exact Hk].
Defined.

Lemma get_never_returns_undefined_witness :
  fst (get "userId" (engine_at (table_db []) first_uid)) = Returned (VStr empty)
  /\ VStr empty <> VUndefined.
Proof.
  split; [reflexivity|].
  apply (proj2 (get_never_returns_undefined (engine_at (table_db []) first_uid) "userId")).
  reflexivity.
Defined.

Lemma null_data_breaks_set_and_get_witness :
  exists m',
    loadSession E0 "previous-token" (VFun "cb") (engine_at (table_db [null_row]) empty)
      = (Returned tt, m')
    /\ values (self m') = VNull
    /\ fst (set E0 "userId" (VStr "42") m') = Thrown TypeError
    /\ fst (get "userId" m') = Thrown TypeError.
Proof.
  destruct (null_data_breaks_set_and_get E0 (engine_at (table_db [null_row]) empty)
              "previous-token" "cb" "userId" null_row [] (VStr "42"))
    as (m' & Hrun & _ & Hv & Hs & _ & Hg).
  - reflexivity.
  - vm_compute. reflexivity.
  - vm_compute. discriminate.
  - exists m'. auto.
Defined.

Lemma set_leaves_other_names_witness :
  let m := snd (set E0 "userId" (VStr "42") (engine_at (table_db []) first_uid)) in
  fst (set E0 "role" (VStr "admin") m) = Returned tt
  /\ fst (get "userId" (snd (set E0 "role" (VStr "admin") m))) = fst (get "userId" m).
Proof.
  cbv zeta.
  apply (set_leaves_other_names E0 _ 86400000 "role" "userId" (VStr "admin")
           [("userId", VStr "42")]).
  - eexists. split; vm_compute; reflexivity.
  - vm_compute. reflexivity.
  - discriminate.
  - discriminate.
  - discriminate.
Defined.

Lemma get_answers_last_set_witness :
  let m := engine_at (table_db []) first_uid in
  let once := snd (set E0 "userId" (VStr "42") m) in
  let twice := snd (set E0 "userId" VUndefined once) in
  fst (get "userId" once) = Returned (VStr "42")
  /\ fst (get "userId" twice) = Returned (VStr empty).
Proof.
  cbv zeta.
  destruct (get_answers_last_set E0 (engine_at (table_db []) first_uid) 86400000
              "userId" (VStr "42") VUndefined [])
    as (_ & H1 & _ & H2).
  - apply engine_at_configured.
  - reflexivity.
  - discriminate.
  - split; [exact H1|exact H2].
Defined.

Lemma clearSession_forgets_everything_witness :
  let m := snd (set E0 "userId" (VStr "42") (engine_at (table_db []) first_uid)) in
  fst (get "userId" m) = Returned (VStr "42")
  /\ fst (get "userId" (snd (clearSession E0 m))) = Returned (VStr empty).
Proof.
  cbv zeta. split; [vm_compute; reflexivity|].
  apply (clearSession_forgets_everything E0 _ "userId").
  - discriminate.
  - reflexivity.
Defined.

Lemma operations_keep_the_setup_witness :
  let m := engine_at (table_db []) empty in
  configured (snd (loadSession E0 empty (VFun "cb") m)) 86400000
  /\ same_setup m (snd (getToken_handler E0 (Some NoopLogger) None m)).
Proof.
  cbv zeta.
  destruct (operations_keep_the_setup E0 (engine_at (table_db []) empty) 86400000
              "userId" empty (VStr "42") (VFun "cb") (Some NoopLogger) None
              (engine_at_configured _ _))
    as ((_ & _ & _ & _ & Hh) & _ & _ & Hl).
  split; [exact Hl|exact Hh].
Defined.

Lemma middleware_without_db_fails_on_connection_witness :
  exists lg w1,
    ioSession (Some 0%nat) (world0 options_without_db) = (Returned lg, w1)
    /\ fst (middleware E0 lg (Some 0%nat) (VFun "next") w1)
       = Thrown (ThrownString missing_db)
    /\ calls (trace (snd (middleware E0 lg (Some 0%nat) (VFun "next") w1))) = [].
Proof.
  apply (middleware_without_db_fails_on_connection E0 0%nat options_without_db
           (world0 options_without_db) (VFun "next")); reflexivity.
Defined.

Lemma middleware_connects_witness :
  exists lg w1 s w2,
    ioSession (Some 0%nat) (world0 (caller_options (table_db []))) = (Returned lg, w1)
    /\ middleware E0 lg (Some 0%nat) (VFun "next") w1 = (Returned s, w2)
    /\ token s = empty
    /\ calls (trace w2) =
         [ (VFun "next", []);
           (VFun "socket.on", [VStr "getToken"; VFun "getToken handler"]) ].
Proof.
  destruct (middleware_connects E0 0%nat (caller_options (table_db [])) (table_db [])
              (world0 (caller_options (table_db []))) "next" eq_refl eq_refl)
    as (lg & w1 & s & w2 & H1 & H2 & _ & _ & _ & _ & _ & H3 & _ & H4 & _).
  exists lg, w1, s, w2. auto.
Defined.

Lemma set_after_failed_load_is_not_saved_witness :
  let loaded := snd (loadSession E0 "previous-token" (VFun "cb")
                       (engine_at failing_db empty)) in
  token (self loaded) = empty
  /\ fst (set E0 "userId" (VStr "42") loaded) = Returned tt
  /\ queries (trace (world (snd (set E0 "userId" (VStr "42") loaded))))
     = queries (trace (world loaded))
  /\ fst (get "userId" (snd (set E0 "userId" (VStr "42") loaded))) = Returned (VStr "42").
Proof.
  cbv zeta.
  apply (set_after_failed_load_is_not_saved E0 (engine_at failing_db empty) 86400000
           "previous-token" "cb" "userId" (VStr "42") []).
  - apply engine_at_configured.
  - reflexivity.
  - reflexivity.
  - discriminate.
Defined.
